(** * TrackForge: the task table and its four request handlers

    A shallow embedding of [app.py]: the [Task] rows, the today view,
    and the add, done and delete actions, with the properties of the
    design document proved or refuted on it.

    Conventions of the model.
    - A Python [str] is a [string]; a character stands for the code point
      of the same number (the code points below 256).  [isspace] and
      [isdigit] take the values the Unicode character database gives
      them on that range.
    - The interpreter is CPython 3.11: [int] has its cap on the digits
      of a literal, and [date.fromisoformat] reads the ISO 8601 forms
      of that version.
    - The clock ([date.today()], [datetime.utcnow()]) is an explicit
      argument of every handler that reads it, read once per request.
    - The table is a finite map from primary key to row, the keys
      within 64 bits as the [id] column has them; a handler maps a
      table to a [result]: either the committed table together with the
      response, or the exception that aborted the request (nothing is
      committed then).
    - The routes of the done and delete actions hand an id over to
      their handler when it is written with digits only, so a
      non-negative integer of any size. *)

From Stdlib Require Import ZArith Lia String Ascii OrderedTypeEx.
From stdpp Require Import base option list gmap strings sorting.

Local Open Scope string_scope.
Local Open Scope Z_scope.

(** ** Exceptions and results *)

Inductive exn : Type :=
  | NotFound                                (* get_or_404: HTTP 404 *)
  | OverflowError                           (* an id beyond 64 bits *)
  | ValueError_int (literal : string)       (* int(): invalid literal *)
  | ValueError_isoformat (raw : string).    (* date.fromisoformat *)

Inductive result (A : Type) : Type :=
  | Ok (a : A)
  | Raise (e : exn).
Arguments Ok {A} a.
Arguments Raise {A} e.

Definition bind {A B} (m : result A) (k : A → result B) : result B :=
  match m with
  | Ok a => k a
  | Raise e => Raise e
  end.

Notation "'let*' x ':=' m 'in' k" := (bind m (fun x => k))
  (at level 10, x name, m at level 100, k at level 200).

Definition is_ok {A} (m : result A) : bool :=
  match m with Ok _ => true | Raise _ => false end.

(** ** Python strings *)

Module Str.

Definition ord (c : ascii) : Z := Z.of_N (N_of_ascii c).

(** [str.isspace] on one character: TAB..CR, FS..US, SPACE, NEL, NBSP. *)
Definition isspace (c : ascii) : bool :=
  let n := ord c in
  ((9 <=? n) && (n <=? 13)) || ((28 <=? n) && (n <=? 32))
  || (n =? 133) || (n =? 160).

Fixpoint lstrip (s : string) : string :=
  match s with
  | String c s' => if isspace c then lstrip s' else s
  | EmptyString => EmptyString
  end.

Fixpoint rstrip (s : string) : string :=
  match s with
  | String c s' =>
      match rstrip s' with
      | EmptyString => if isspace c then EmptyString else String c EmptyString
      | r => String c r
      end
  | EmptyString => EmptyString
  end.

(** [s.strip()] *)
Definition strip (s : string) : string := rstrip (lstrip s).

(** ASCII decimal digits, the only decimal characters below 256. *)
Definition isdecimal_char (c : ascii) : bool :=
  (48 <=? ord c) && (ord c <=? 57).

(** Characters with a digit value: the decimal ones and the
    superscripts U+00B2, U+00B3 and U+00B9. *)
Definition isdigit_char (c : ascii) : bool :=
  isdecimal_char c
  || (ord c =? 178) || (ord c =? 179) || (ord c =? 185).

Fixpoint all_chars (p : ascii → bool) (s : string) : bool :=
  match s with
  | String c s' => p c && all_chars p s'
  | EmptyString => true
  end.

(** [s.isdigit()]: at least one character, and all of them digits. *)
Definition isdigit (s : string) : bool :=
  match s with
  | EmptyString => false
  | _ => all_chars isdigit_char s
  end.

Definition digit_value (c : ascii) : option Z :=
  if isdecimal_char c then Some (ord c - 48) else None.

(** The digits of an integer literal, with single underscores allowed
    between digits. [seen] tells whether the previous character was a
    digit. *)
Fixpoint int_digits (acc : Z) (seen : bool) (s : string) : option Z :=
  match s with
  | EmptyString => if seen then Some acc else None
  | String c s' =>
      if Ascii.eqb c "_"
      then (if seen then int_digits acc false s' else None)
      else match digit_value c with
           | Some d => int_digits (10 * acc + d) true s'
           | None => None
           end
  end.

(** The interpreter's default cap on the digits of a literal
    ([sys.get_int_max_str_digits()]); underscores do not count. *)
Definition int_max_str_digits : Z := 4300.

Fixpoint count_digits (s : string) : Z :=
  match s with
  | String c s' => (if isdecimal_char c then 1 else 0) + count_digits s'
  | EmptyString => 0
  end.

(** [int(s)] in base 10: surrounding whitespace, an optional sign, then
    the digits, no more of them than the cap. *)
Definition int (s : string) : result Z :=
  let t := strip s in
  let '(sign, body) :=
    match t with
    | String c r =>
        if Ascii.eqb c "-" then (-1, r)
        else if Ascii.eqb c "+" then (1, r)
        else (1, t)
    | EmptyString => (1, t)
    end in
  match int_digits 0 false body with
  | Some n =>
      if int_max_str_digits <? count_digits body
      then Raise (ValueError_int s)
      else Ok (sign * n)
  | None => Raise (ValueError_int s)
  end.

(** [x or y] on strings: the empty string is falsy. *)
Definition or_ (x y : string) : string :=
  match x with EmptyString => y | _ => x end.

End Str.

(** ** Dates *)

Record date : Type := Date { year : Z; month : Z; day : Z }.

Global Instance date_eq_dec : EqDecision date.
Proof. solve_decision. Defined.

Module Date.

Definition is_leap (y : Z) : bool :=
  (y mod 4 =? 0) && (negb (y mod 100 =? 0) || (y mod 400 =? 0)).

Definition days_in_month (y m : Z) : Z :=
  if m =? 2 then (if is_leap y then 29 else 28)
  else if (m =? 4) || (m =? 6) || (m =? 9) || (m =? 11) then 30
  else 31.

(** What the [date] constructor accepts. *)
Definition valid (d : date) : bool :=
  (1 <=? year d) && (year d <=? 9999)
  && (1 <=? month d) && (month d <=? 12)
  && (1 <=? day d) && (day d <=? days_in_month (year d) (month d)).

(** [d1 <= d2] *)
Definition le (d1 d2 : date) : bool :=
  if year d1 =? year d2 then
    if month d1 =? month d2 then day d1 <=? day d2
    else month d1 <? month d2
  else year d1 <? year d2.

Definition digit_char (n : Z) : ascii := ascii_of_N (Z.to_N (48 + n mod 10)).

(** "%04d" and "%02d" on the fields of a date, which fit their widths. *)
Definition fmt04 (n : Z) : string :=
  String (digit_char (n / 1000)) (String (digit_char (n / 100))
    (String (digit_char (n / 10)) (String (digit_char n) ""))).
Definition fmt02 (n : Z) : string :=
  String (digit_char (n / 10)) (String (digit_char n) "").

(** [d.isoformat()] = "%04d-%02d-%02d" % (year, month, day) *)
Definition isoformat (d : date) : string :=
  fmt04 (year d) +:+ "-" +:+ fmt02 (month d) +:+ "-" +:+ fmt02 (day d).

(** A run of ASCII digits read as a number, most significant first. *)
Fixpoint parse_digits (acc : Z) (cs : list ascii) : option Z :=
  match cs with
  | [] => Some acc
  | c :: cs' =>
      match Str.digit_value c with
      | Some d => parse_digits (10 * acc + d) cs'
      | None => None
      end
  end.

(** The UTF-8 bytes of a string: one byte for a code point below 128,
    two for the others. *)
Definition utf8_char (c : ascii) : list ascii :=
  let n := N_of_ascii c in
  if (n <? 128)%N then [c]
  else [ascii_of_N (192 + n / 64); ascii_of_N (128 + n mod 64)].

Fixpoint utf8 (s : string) : list ascii :=
  match s with
  | String c s' => utf8_char c ++ utf8 s'
  | EmptyString => []
  end.

(** The next [n] bytes read as digits, and the bytes after them. *)
Definition take_digits (n : nat) (bs : list ascii) : option (Z * list ascii) :=
  if (length (take n bs) =? n)%nat then
    match parse_digits 0 (take n bs) with
    | Some v => Some (v, drop n bs)
    | None => None
    end
  else None.

(** The proleptic ordinal of a date, and back. *)
Definition days_before_year (y : Z) : Z :=
  (y - 1) * 365 + (y - 1) / 4 - (y - 1) / 100 + (y - 1) / 400.

Definition days_before_month (y m : Z) : Z :=
  nth (Z.to_nat m) [0; 0; 31; 59; 90; 120; 151; 181; 212; 243; 273; 304; 334] 0
  + (if (2 <? m) && is_leap y then 1 else 0).

Definition ymd_to_ord (y m d : Z) : Z :=
  days_before_year y + days_before_month y m + d.

Definition ord_to_ymd (ordinal : Z) : date :=
  let n := ordinal - 1 in
  let n400 := n / 146097 in
  let n := n mod 146097 in
  let n100 := n / 36524 in
  let n := n mod 36524 in
  let n4 := n / 1461 in
  let n := n mod 1461 in
  let n1 := n / 365 in
  let n := n mod 365 in
  let y := n400 * 400 + 1 + n100 * 100 + n4 * 4 + n1 in
  if (n1 =? 4) || (n100 =? 4) then Date (y - 1) 12 31
  else
    let leapyear := (n1 =? 3) && (negb (n4 =? 24) || (n100 =? 3)) in
    let before m :=
      nth (Z.to_nat m) [0; 0; 31; 59; 90; 120; 151; 181; 212; 243; 273; 304; 334] 0
      + (if (2 <? m) && leapyear then 1 else 0) in
    let m := (n + 50) / 32 in
    if n <? before m
    then Date y (m - 1) (n - (before m - days_in_month y (m - 1)) + 1)
    else Date y m (n - before m + 1).

(** Monday of the first ISO week of a year, as an ordinal. *)
Definition iso_week1_monday (y : Z) : Z :=
  let first_day := ymd_to_ord y 1 1 in
  let first_weekday := (first_day + 6) mod 7 in
  let week1_monday := first_day - first_weekday in
  if 3 <? first_weekday then week1_monday + 7 else week1_monday.

(** A year has a week 53 when it starts on a Thursday, or on a
    Wednesday and is a leap year. *)
Definition has_week_53 (y : Z) : bool :=
  let first_weekday := (ymd_to_ord y 1 1 + 6) mod 7 in
  (first_weekday =? 3) || ((first_weekday =? 2) && is_leap y).

(** The date of day [d] of ISO week [w] of year [y]; a year 0 never
    gives a date. *)
Definition iso_to_ymd (y w d : Z) : option date :=
  if (1 <=? y)
     && (((1 <=? w) && (w <=? 52)) || ((w =? 53) && has_week_53 y))
     && (1 <=? d) && (d <=? 7)
  then Some (ord_to_ymd (iso_week1_monday y + (w - 1) * 7 + d - 1))
  else None.

(** The check of the [date] constructor on what was parsed. *)
Definition checked (d : date) : option date :=
  if valid d then Some d else None.

(** The calendar form: month, separator as after the year, day.  What
    follows the day is not looked at. *)
Definition parse_month_day (y : Z) (uses_separator : bool) (p : list ascii)
    : option date :=
  match take_digits 2 p with
  | Some (m, p) =>
      let after_separator :=
        if uses_separator then
          match p with
          | c :: p' => if Ascii.eqb c "-" then Some p' else None
          | [] => None
          end
        else Some p in
      match after_separator with
      | Some p =>
          match take_digits 2 p with
          | Some (d, _) => checked (Date y m d)
          | None => None
          end
      | None => None
      end
  | None => None
  end.

(** The week form, after the W: two digits of week, then nothing (day
    1), or the separator as after the year and one digit of day. *)
Definition parse_week_day (y : Z) (uses_separator : bool) (p : list ascii)
    : option date :=
  match take_digits 2 p with
  | Some (w, p) =>
      match p with
      | [] => iso_to_ymd y w 1 ≫= checked
      | c :: p' =>
          let day_digit :=
            if uses_separator
            then (if Ascii.eqb c "-" then take_digits 1 p' else None)
            else take_digits 1 p in
          match day_digit with
          | Some (d, _) => iso_to_ymd y w d ≫= checked
          | None => None
          end
      end
  | None => None
  end.

(** The forms that [date.fromisoformat] of CPython 3.11 reads:
    YYYY-MM-DD, YYYYMMDD, YYYY-Www, YYYYWww, YYYY-Www-D and YYYYWwwD,
    in a string of 7, 8 or 10 bytes. *)
Definition parse_isoformat (s : string) : option date :=
  let bs := utf8 s in
  let len := length bs in
  if ((len =? 7) || (len =? 8) || (len =? 10))%nat then
    match take_digits 4 bs with
    | Some (y, p) =>
        let uses_separator :=
          match p with c :: _ => Ascii.eqb c "-" | [] => false end in
        let p := if uses_separator then drop 1 p else p in
        match p with
        | c :: p' =>
            if Ascii.eqb c "W" then parse_week_day y uses_separator p'
            else parse_month_day y uses_separator p
        | [] => None
        end
    | None => None
    end
  else None.

(** [date.fromisoformat(s)] *)
Definition fromisoformat (s : string) : result date :=
  match parse_isoformat s with
  | Some d => Ok d
  | None => Raise (ValueError_isoformat s)
  end.

End Date.

(** ** The task table *)

(** [datetime.utcnow()]: microseconds since the epoch. *)
Definition datetime : Type := Z.

(** A row of [Task], without its primary key [id], which is the key of
    the row in the table. *)
Record Task : Type := mkTask {
  title : string;
  source : option string;
  tags : string;
  estimate_pomos : Z;
  actual_pomos : Z;
  due_date : date;
  status : string;               (* scheduled | today | done *)
  created_at : datetime;
  completed_at : option date;
}.

(** The [id] column is a 64-bit signed integer. *)
Definition rowid_fits (k : Z) : bool :=
  (-9223372036854775808 <=? k) && (k <=? 9223372036854775807).

Definition rows_fit (m : gmap Z Task) : bool :=
  forallb (λ r : Z * Task, rowid_fits r.1) (map_to_list m).

(** The table: a finite map from id to row, all ids within 64 bits. *)
Record store : Type := Store {
  rows : gmap Z Task;
  rows_ok : Is_true (rows_fit rows);
}.

(** The table with rows [m], when their ids fit. *)
Definition store_of (m : gmap Z Task) (otherwise : store) : store :=
  match decide (Is_true (rows_fit m)) with
  | left H => Store m H
  | right _ => otherwise
  end.

Global Instance store_empty : Empty store := Store ∅ I.
Global Instance store_lookup : Lookup Z Task store := λ k st, rows st !! k.
Global Instance store_insert : Insert Z Task store :=
  λ k t st, store_of (<[k := t]> (rows st)) st.
Global Instance store_delete : Delete Z store :=
  λ k st, store_of (delete k (rows st)) st.
Global Instance store_singleton : SingletonM Z Task store :=
  λ k t, <[k := t]> ∅.
Global Instance store_size : Size store := λ st, size (rows st).

(** Every row of the table satisfies [P]. *)
Definition store_Forall (P : Z → Task → Prop) (st : store) : Prop :=
  ∀ k t, st !! k = Some t → P k t.

(** The key of an inserted row: one more than the largest key in use,
    1 in an empty table.  (When the largest key is the last 64-bit
    integer the engine looks for an unused key at random instead; that
    case is left out: the insertion does nothing then.) *)
Definition next_id (st : store) : Z :=
  match elements (dom (rows st)) with
  | [] => 1
  | k :: ks => 1 + foldr Z.max k ks
  end.

(** The driver binds an id as a 64-bit integer, or raises. *)
Definition bind_rowid (task_id : Z) : result Z :=
  if rowid_fits task_id then Ok task_id else Raise OverflowError.

(** [Task.query.get_or_404(task_id)] *)
Definition get_or_404 (st : store) (task_id : Z) : result Task :=
  let* k := bind_rowid task_id in
  match st !! k with
  | Some t => Ok t
  | None => Raise NotFound
  end.

(** ** Requests and responses *)

(** [request.form]: the submitted fields in order; [get] returns the
    first value of a key. *)
Abbreviation Form := (list (string * string)).

Fixpoint form_get (form : Form) (key : string) : option string :=
  match form with
  | [] => None
  | (k, v) :: form' => if String.eqb k key then Some v else form_get form' key
  end.

(** [o or y] where [o] is [None] or a string. *)
Definition opt_or (o : option string) (y : string) : string :=
  match o with
  | Some x => Str.or_ x y
  | None => y
  end.

Inductive response : Type :=
  | Rendered (template : string) (today : date) (items : list (Z * Task))
  | Redirect (endpoint : string).

(** ** GET / *)

(** The two [filter] clauses of the query. *)
Definition selected (today : date) (r : Z * Task) : bool :=
  Date.le (due_date r.2) today
  && (String.eqb (status r.2) "today" || String.eqb (status r.2) "scheduled").

(** [ORDER BY status DESC, id DESC]: [r1] is not placed after [r2]. *)
Definition order_by (r1 r2 : Z * Task) : bool :=
  match String.compare (status r1.2) (status r2.2) with
  | Gt => true
  | Lt => false
  | Eq => r2.1 <=? r1.1
  end.

Definition Selected (today : date) (r : Z * Task) : Prop :=
  selected today r = true.
Definition OrderBy (r1 r2 : Z * Task) : Prop := order_by r1 r2 = true.

Global Instance Selected_dec today r : Decision (Selected today r).
Proof. unfold Selected. apply _. Defined.
Global Instance OrderBy_dec : RelDecision OrderBy.
Proof. intros r1 r2. unfold OrderBy. apply _. Defined.

(** The query: filter, order, [limit(3)]. *)
Definition today_items (today : date) (st : store) : list (Z * Task) :=
  take 3 (merge_sort OrderBy (filter (Selected today) (map_to_list (rows st)))).

Definition today_view (today : date) (st : store) : response :=
  Rendered "today.html" today (today_items today st).

(** The design's words for the selection and the order of the today
    view: a row is due when its date has come and it is not done; among
    due rows "today" goes before "scheduled", and the larger id first
    among rows of equal status. *)
Definition Due (today : date) (t : Task) : Prop :=
  Date.le (due_date t) today = true
  ∧ (status t = "today" ∨ status t = "scheduled").

Definition Before (r1 r2 : Z * Task) : Prop :=
  (status r1.2 = "today" ∧ status r2.2 = "scheduled")
  ∨ (status r1.2 = status r2.2 ∧ r2.1 < r1.1).

(** The list the design describes: the due rows of the table, each
    once, in that order. *)
Definition TodayList (today : date) (st : store) (l : list (Z * Task)) : Prop :=
  (∀ id t, (id, t) ∈ l ↔ st !! id = Some t ∧ Due today t)
  ∧ NoDup l
  ∧ StronglySorted Before l.

(** ** POST /add *)

Definition title_of (form : Form) : string :=
  Str.or_ (Str.strip (default "" (form_get form "title"))) "Untitled Task".

Definition source_of (form : Form) : option string :=
  match Str.strip (default "" (form_get form "source")) with
  | EmptyString => None
  | s => Some s
  end.

Definition tags_of (form : Form) : string :=
  Str.strip (default "" (form_get form "tags")).

Definition pomos_of (form : Form) : result Z :=
  let pomos_raw := Str.or_ (default "1" (form_get form "pomos")) "1" in
  if Str.isdigit pomos_raw then Str.int pomos_raw else Ok 1.

Definition due_of (today : date) (form : Form) : result date :=
  let due_raw := opt_or (form_get form "due") (Date.isoformat today) in
  Date.fromisoformat due_raw.

Definition status_of (today due : date) : string :=
  if decide (due = today) then "today" else "scheduled".

Definition new_task (today : date) (now : datetime) (form : Form)
    (pomos : Z) (due : date) : Task :=
  {| title := title_of form;
     source := source_of form;
     tags := tags_of form;
     estimate_pomos := Z.max 1 (Z.min pomos 8);
     actual_pomos := 0;
     due_date := due;
     status := status_of today due;
     created_at := now;
     completed_at := None |}.

Definition add_task (today : date) (now : datetime) (form : Form)
    (st : store) : result (store * response) :=
  let* pomos := pomos_of form in
  let* due := due_of today form in
  let t := new_task today now form pomos due in
  Ok (<[next_id st := t]> st, Redirect "today_view").

(** ** POST /done/<int:task_id> *)

Definition done_on (today : date) (t : Task) : Task :=
  {| title := title t;
     source := source t;
     tags := tags t;
     estimate_pomos := estimate_pomos t;
     actual_pomos := actual_pomos t;
     due_date := due_date t;
     status := "done";
     created_at := created_at t;
     completed_at := Some today |}.

Definition mark_done (today : date) (task_id : Z) (st : store)
    : result (store * response) :=
  let* t := get_or_404 st task_id in
  Ok (<[task_id := done_on today t]> st, Redirect "today_view").

(** ** POST /delete/<int:task_id> *)

Definition delete_task (task_id : Z) (st : store)
    : result (store * response) :=
  let* t := get_or_404 st task_id in
  Ok (delete task_id st, Redirect "today_view").

(** ** Runs of the application *)

Inductive action : Type :=
  | Add (today : date) (now : datetime) (form : Form)
  | Done (today : date) (task_id : Z)
  | Delete (task_id : Z).

Definition run (a : action) (st : store) : result (store * response) :=
  match a with
  | Add today now form => add_task today now form st
  | Done today task_id => mark_done today task_id st
  | Delete task_id => delete_task task_id st
  end.

(** The tables the application can be in: the empty one, and those a
    request that went through leaves behind. *)
Inductive reachable : store → Prop :=
  | reachable_empty : reachable ∅
  | reachable_step st a st' r :
      reachable st → run a st = Ok (st', r) → reachable st'.

(** ** The design's vocabulary *)

(** "Trimmed": [t] is [raw] without the whitespace at its two ends. *)
Definition starts_with_space (s : string) : bool :=
  match s with
  | String c _ => Str.isspace c
  | EmptyString => false
  end.

Fixpoint ends_with_space (s : string) : bool :=
  match s with
  | EmptyString => false
  | String c EmptyString => Str.isspace c
  | String _ s' => ends_with_space s'
  end.

Definition Trimmed (raw t : string) : Prop :=
  (∃ l r, raw = l +:+ t +:+ r
          ∧ Str.all_chars Str.isspace l = true
          ∧ Str.all_chars Str.isspace r = true)
  ∧ starts_with_space t = false
  ∧ ends_with_space t = false.

(** "The integer value of the string", for a string of decimal digits. *)
Fixpoint decimal_value (acc : Z) (s : string) : Z :=
  match s with
  | String c s' => decimal_value (10 * acc + (Str.ord c - 48)) s'
  | EmptyString => acc
  end.

(** "Clamped into [1,8]". *)
Definition clamp_1_8 (n : Z) : Z :=
  if n <? 1 then 1 else if 8 <? n then 8 else n.

(** The invariant of a row: the estimate within its guardrails, and a
    completion date exactly on the rows that are done. *)
Definition task_inv (t : Task) : Prop :=
  1 <= estimate_pomos t <= 8
  ∧ (is_Some (completed_at t) ↔ status t = "done").

(** ** Task.tag_list *)

(** [s.split(sep)] for a separator of one character: the pieces between
    the separators, empty ones included; one piece more than there are
    separators. *)
Fixpoint str_split (sep : ascii) (s : string) : list string :=
  match s with
  | EmptyString => [EmptyString]
  | String c s' =>
      if Ascii.eqb c sep then EmptyString :: str_split sep s'
      else match str_split sep s' with
           | piece :: pieces => String c piece :: pieces
           | [] => [String c EmptyString]
           end
  end.

(** [sep.join(l)] *)
Fixpoint str_join (sep : ascii) (l : list string) : string :=
  match l with
  | [] => EmptyString
  | [x] => x
  | x :: l' => x +:+ String sep (str_join sep l')
  end.

(** A string is truthy when it is not empty. *)
Definition truthy (s : string) : Prop := s ≠ "".

Global Instance truthy_dec s : Decision (truthy s).
Proof. unfold truthy. apply _. Defined.

(** [[t for t in (self.tags or '').split(';') if t]] *)
Definition tag_list (self : Task) : list string :=
  filter truthy (str_split ";" (Str.or_ (tags self) "")).

Definition is_semicolon (c : ascii) : bool := Ascii.eqb c ";".

Definition no_semicolon (s : string) : bool :=
  Str.all_chars (λ c, negb (is_semicolon c)) s.

(** ** The shape of a stored row *)

(** What every row written by the handlers looks like, beyond
    [task_inv]. *)
Definition trimmed (s : string) : Prop :=
  starts_with_space s = false ∧ ends_with_space s = false.

Definition row_shape (id : Z) (t : Task) : Prop :=
  1 <= id
  ∧ (title t ≠ "" ∧ trimmed (title t))
  ∧ (∀ s, source t = Some s → s ≠ "" ∧ trimmed s)
  ∧ trimmed (tags t)
  ∧ actual_pomos t = 0
  ∧ Date.valid (due_date t) = true
  ∧ (status t = "scheduled" ∨ status t = "today" ∨ status t = "done").

(** A request and, when it went through, a second one on the table it
    committed: the result of the second, or the exception of the
    first. *)
Definition and_then (first second : store → result (store * response))
    (st : store) : result (store * response) :=
  let* p := first st in second p.1.

(** The application serving a request: the table after it, which is
    the old one when the request aborted (nothing is committed then),
    and the outcome of the request. *)
Definition serve (a : action) (st : store) : store * result response :=
  match run a st with
  | Ok (st', r) => (st', Ok r)
  | Raise e => (st, Raise e)
  end.

(** Two requests served one after the other: the final table and the
    outcomes of the first and of the second. *)
Definition serve2 (a b : action) (st : store)
    : store * result response * result response :=
  let (st1, out_a) := serve a st in
  let (st2, out_b) := serve b st1 in
  (st2, out_a, out_b).

(** The last id of the id column. *)
Definition max_rowid : Z := 9223372036854775807.

(** ** Sample requests *)

Definition dsa_python : Task :=
  {| title := "Read ch.3"; source := None; tags := "DSA;Python";
     estimate_pomos := 1; actual_pomos := 0; due_date := Date 2025 3 9;
     status := "today"; created_at := 0; completed_at := None |}.

Definition a_day : date := Date 2025 3 9.

Definition read_ch3 : Form :=
  [("title", "  Read ch.3 "); ("source", "Grokking ch4");
   ("due", "2025-03-09"); ("pomos", "5")].

Definition untitled_2099 : Form := [("title", ""); ("due", "2099-01-01")].

Definition empty_due : Form := [("title", "Read ch.3"); ("due", "")].

Definition bad_due : Form := [("title", "Read ch.3"); ("due", "tomorrow")].

(** A table with one open row, and the same with the row done. *)
Definition one_open : store := {[1 := new_task a_day 0 read_ch3 5 a_day]}.

Definition one_done : store :=
  {[1 := done_on a_day (new_task a_day 0 read_ch3 5 a_day)]}.

(** Two open rows, the second one added later. *)
Definition two_open : store :=
  <[2 := new_task a_day 1 read_ch3 5 a_day]> one_open.

(** The superscript two, U+00B2. *)
Definition superscript_two : string := String "178" "".

(** [c * n] *)
Fixpoint repeat_char (c : ascii) (n : nat) : string :=
  match n with
  | O => EmptyString
  | S n' => String c (repeat_char c n')
  end.

(** * Properties *)

(** ** Dates: printing and parsing *)

Section date_facts.

Lemma digit_value_digit_char n :
  Str.digit_value (Date.digit_char n) = Some (n mod 10).
Proof.
  unfold Date.digit_char.
  assert (Hk : 0 <= n mod 10 < 10) by (apply Z.mod_pos_bound; lia).
  set (k := n mod 10) in *.
  assert (k = 0 ∨ k = 1 ∨ k = 2 ∨ k = 3 ∨ k = 4 ∨ k = 5 ∨ k = 6
          ∨ k = 7 ∨ k = 8 ∨ k = 9) as Hcases by lia.
  repeat (destruct Hcases as [-> | Hcases]; [reflexivity |]).
  subst k. rewrite Hcases. reflexivity.
Qed.

Lemma parse_fmt04 n :
  0 <= n <= 9999 →
  Date.parse_digits 0
    [Date.digit_char (n / 1000); Date.digit_char (n / 100);
     Date.digit_char (n / 10); Date.digit_char n] = Some n.
Proof.
  intros Hn. cbn [Date.parse_digits].
  rewrite !digit_value_digit_char. f_equal.
  Z.div_mod_to_equations. lia.
Qed.

Lemma parse_fmt02 n :
  0 <= n <= 99 →
  Date.parse_digits 0 [Date.digit_char (n / 10); Date.digit_char n] = Some n.
Proof.
  intros Hn. cbn [Date.parse_digits].
  rewrite !digit_value_digit_char. f_equal.
  Z.div_mod_to_equations. lia.
Qed.

Lemma days_in_month_le y m : Date.days_in_month y m <= 31.
Proof.
  unfold Date.days_in_month.
  repeat case_match; lia.
Qed.

Lemma valid_bounds d :
  Date.valid d = true →
  1 <= year d <= 9999 ∧ 1 <= month d <= 12 ∧ 1 <= day d <= 31.
Proof.
  unfold Date.valid. intros H.
  repeat (apply andb_prop in H as [H ?]).
  pose proof (days_in_month_le (year d) (month d)). lia.
Qed.

Lemma digit_char_cases n :
  Date.utf8_char (Date.digit_char n) = [Date.digit_char n]
  ∧ Ascii.eqb (Date.digit_char n) "W" = false
  ∧ Ascii.eqb (Date.digit_char n) "-" = false.
Proof.
  unfold Date.digit_char.
  assert (Hk : 0 <= n mod 10 < 10) by (apply Z.mod_pos_bound; lia).
  set (k := n mod 10) in *.
  assert (k = 0 ∨ k = 1 ∨ k = 2 ∨ k = 3 ∨ k = 4 ∨ k = 5 ∨ k = 6
          ∨ k = 7 ∨ k = 8 ∨ k = 9) as Hcases by lia.
  repeat (destruct Hcases as [-> | Hcases]; [by repeat split |]).
  subst k. rewrite Hcases. by repeat split.
Qed.

Lemma utf8_isoformat y m dd :
  Date.utf8 (Date.isoformat (Date y m dd))
  = [Date.digit_char (y / 1000); Date.digit_char (y / 100);
     Date.digit_char (y / 10); Date.digit_char y; "-"%char;
     Date.digit_char (m / 10); Date.digit_char m; "-"%char;
     Date.digit_char (dd / 10); Date.digit_char dd].
Proof.
  unfold Date.isoformat, Date.fmt04, Date.fmt02; cbn [year month day].
  cbv [String.append]. cbn [Date.utf8].
  repeat match goal with
    | |- context [Date.utf8_char (Date.digit_char ?n)] =>
        rewrite (proj1 (digit_char_cases n))
    end.
  reflexivity.
Qed.

Lemma parse_isoformat_isoformat d :
  Date.valid d = true → Date.parse_isoformat (Date.isoformat d) = Some d.
Proof.
  intros Hv. destruct (valid_bounds d Hv) as (Hy & Hm & Hd).
  destruct d as [y m dd]; cbn [year month day] in *.
  unfold Date.parse_isoformat. rewrite utf8_isoformat.
  cbn [length Nat.eqb orb].
  unfold Date.take_digits at 1. cbn [take drop length Nat.eqb].
  rewrite parse_fmt04 by lia. cbn [drop].
  rewrite Ascii.eqb_refl.
  destruct (digit_char_cases (m / 10)) as (_ & -> & _).
  unfold Date.parse_month_day.
  unfold Date.take_digits at 1. cbn [take drop length Nat.eqb].
  rewrite parse_fmt02 by lia. rewrite Ascii.eqb_refl.
  unfold Date.take_digits. cbn [take drop length Nat.eqb].
  rewrite parse_fmt02 by lia.
  unfold Date.checked. by rewrite Hv.
Qed.

(** Parsing what [isoformat] printed gives the date back. *)
Lemma fromisoformat_isoformat d :
  Date.valid d = true → Date.fromisoformat (Date.isoformat d) = Ok d.
Proof.
  intros Hv. unfold Date.fromisoformat.
  by rewrite (parse_isoformat_isoformat d Hv).
Qed.

Lemma checked_valid d d' : Date.checked d = Some d' → Date.valid d' = true.
Proof.
  unfold Date.checked. destruct (Date.valid d) eqn:Hv; [| done].
  by intros [= <-].
Qed.

Lemma le_refl d : Date.le d d = true.
Proof. unfold Date.le. rewrite !Z.eqb_refl. lia. Qed.

End date_facts.

(** ** The table: fresh keys and lookups *)

Section store_facts.

Lemma foldr_max_ge (k : Z) (ks : list Z) x :
  x ∈ k :: ks → x <= foldr Z.max k ks.
Proof.
  induction ks as [|a ks IH]; cbn [foldr]; intros Hx.
  - apply list_elem_of_singleton in Hx. lia.
  - apply elem_of_cons in Hx as [-> | Hx].
    + assert (k ∈ k :: ks) as Hk by left.
      specialize (IH Hk). lia.
    + apply elem_of_cons in Hx as [-> | Hx]; [lia |].
      assert (x ∈ k :: ks) as Hk by (by right).
      specialize (IH Hk). lia.
Qed.

Lemma rows_fit_spec (m : gmap Z Task) :
  Is_true (rows_fit m) ↔ ∀ k t, m !! k = Some t → rowid_fits k = true.
Proof.
  unfold rows_fit. rewrite Is_true_true, forallb_forall. split.
  - intros H k t Hk. apply (H (k, t)).
    by apply list_elem_of_In, elem_of_map_to_list.
  - intros H [k t] Hin. apply list_elem_of_In, elem_of_map_to_list in Hin.
    by apply (H k t).
Qed.

Lemma store_eq (st1 st2 : store) : rows st1 = rows st2 → st1 = st2.
Proof.
  destruct st1 as [m1 H1], st2 as [m2 H2]; cbn. intros <-.
  f_equal. apply proof_irrel.
Qed.

Lemma rows_store_of m st : Is_true (rows_fit m) → rows (store_of m st) = m.
Proof. intros H. unfold store_of. by destruct (decide _). Qed.

(** A row is stored under an id that fits. *)
Lemma store_lookup_fits (st : store) k t : st !! k = Some t → rowid_fits k = true.
Proof. apply rows_fit_spec, rows_ok. Qed.

Lemma store_lookup_empty k : (∅ : store) !! k = None.
Proof. apply (lookup_empty (M:=gmap Z)). Qed.

Lemma rows_insert (st : store) k t :
  rowid_fits k = true → rows (<[k := t]> st) = <[k := t]> (rows st).
Proof.
  intros Hk. apply rows_store_of, rows_fit_spec. intros j tj.
  rewrite lookup_insert. case_decide as Hj; [by intros _; subst |].
  intros Hj'. by apply (store_lookup_fits st j tj).
Qed.

(** An id that does not fit is not stored. *)
Lemma store_insert_unfit (st : store) k t :
  rowid_fits k = false → <[k := t]> st = st.
Proof.
  intros Hk. unfold insert, store_insert, store_of.
  destruct (decide _) as [H | _]; [| done]. exfalso.
  assert (rowid_fits k = true); [| congruence].
  apply (proj1 (rows_fit_spec _) H k t), lookup_insert_eq.
Qed.

Lemma rows_delete (st : store) k : rows (delete k st) = delete k (rows st).
Proof.
  apply rows_store_of, rows_fit_spec. intros j tj.
  rewrite lookup_delete. case_decide; [done |].
  intros Hj. by apply (store_lookup_fits st j tj).
Qed.

Lemma store_lookup_insert_eq (st : store) k t :
  rowid_fits k = true → <[k := t]> st !! k = Some t.
Proof.
  intros Hk. unfold lookup, store_lookup. rewrite rows_insert by done.
  apply lookup_insert_eq.
Qed.

Lemma store_lookup_insert_ne (st : store) k j t :
  k ≠ j → <[k := t]> st !! j = st !! j.
Proof.
  intros Hne. destruct (rowid_fits k) eqn:Hk.
  - unfold lookup, store_lookup. rewrite rows_insert by done.
    by apply lookup_insert_ne.
  - by rewrite store_insert_unfit.
Qed.

Lemma store_lookup_delete_eq (st : store) k : delete k st !! k = None.
Proof. unfold lookup, store_lookup. rewrite rows_delete. apply lookup_delete_eq. Qed.

Lemma store_lookup_delete_ne (st : store) k j :
  k ≠ j → delete k st !! j = st !! j.
Proof.
  intros Hne. unfold lookup, store_lookup. rewrite rows_delete.
  by apply lookup_delete_ne.
Qed.

Lemma store_insert_insert_eq (st : store) k x y :
  <[k := x]> (<[k := y]> st) = <[k := x]> st.
Proof.
  destruct (rowid_fits k) eqn:Hk.
  - apply store_eq. rewrite !rows_insert by done. apply insert_insert_eq.
  - by rewrite !store_insert_unfit.
Qed.

Lemma store_insert_insert_ne (st : store) k j x y :
  k ≠ j → <[k := x]> (<[j := y]> st) = <[j := y]> (<[k := x]> st).
Proof.
  intros Hne. destruct (rowid_fits k) eqn:Hk, (rowid_fits j) eqn:Hj.
  - apply store_eq. rewrite !rows_insert by done. by apply insert_insert_ne.
  - by rewrite !(store_insert_unfit _ j).
  - by rewrite !(store_insert_unfit _ k).
  - by rewrite !(store_insert_unfit _ k).
Qed.

Lemma store_delete_insert_ne (st : store) k j x :
  k ≠ j → delete k (<[j := x]> st) = <[j := x]> (delete k st).
Proof.
  intros Hne. destruct (rowid_fits j) eqn:Hj.
  - apply store_eq. rewrite rows_delete, !rows_insert, rows_delete by done.
    by apply delete_insert_ne.
  - by rewrite !(store_insert_unfit _ j).
Qed.

Lemma store_delete_delete (st : store) k j :
  delete k (delete j st) = delete j (delete k st).
Proof. apply store_eq. rewrite !rows_delete. apply delete_delete. Qed.

Lemma store_Forall_empty P : store_Forall P ∅.
Proof. intros k t. by rewrite store_lookup_empty. Qed.

Lemma store_Forall_insert P (st : store) k t :
  P k t → store_Forall P st → store_Forall P (<[k := t]> st).
Proof.
  intros Ht Hst j tj. destruct (decide (k = j)) as [<- | Hne].
  - destruct (rowid_fits k) eqn:Hk.
    + rewrite store_lookup_insert_eq by done. by intros [= <-].
    + rewrite store_insert_unfit by done. apply Hst.
  - rewrite store_lookup_insert_ne by done. apply Hst.
Qed.

Lemma store_Forall_delete P (st : store) k :
  store_Forall P st → store_Forall P (delete k st).
Proof.
  intros Hst j tj. destruct (decide (k = j)) as [<- | Hne].
  - by rewrite store_lookup_delete_eq.
  - rewrite store_lookup_delete_ne by done. apply Hst.
Qed.

(** The key given to an inserted row is not in use. *)
Lemma next_id_fresh (st : store) : st !! next_id st = None.
Proof.
  unfold lookup, store_lookup.
  apply not_elem_of_dom. intros Hin.
  apply elem_of_elements in Hin. unfold next_id in Hin.
  destruct (elements (dom (rows st))) as [|k ks].
  - by apply elem_of_nil in Hin.
  - apply foldr_max_ge in Hin. lia.
Qed.

Lemma get_or_404_Some (st : store) id t :
  st !! id = Some t → get_or_404 st id = Ok t.
Proof.
  intros Hid. unfold get_or_404, bind_rowid.
  rewrite (store_lookup_fits st id t Hid). cbn [bind]. by rewrite Hid.
Qed.

Lemma get_or_404_None (st : store) id :
  rowid_fits id = true → st !! id = None →
  get_or_404 st id = Raise NotFound.
Proof. intros Hfit Hid. unfold get_or_404, bind_rowid. by rewrite Hfit; cbn; rewrite Hid. Qed.

Lemma get_or_404_unfit (st : store) id :
  rowid_fits id = false → get_or_404 st id = Raise OverflowError.
Proof. intros Hfit. unfold get_or_404, bind_rowid. by rewrite Hfit. Qed.

(** [get_or_404] by cases. *)
Lemma get_or_404_cases (st : store) id :
  get_or_404 st id
  = match st !! id with
    | Some t => Ok t
    | None => if rowid_fits id then Raise NotFound else Raise OverflowError
    end.
Proof.
  destruct (st !! id) as [t|] eqn:Hid; [by apply get_or_404_Some |].
  destruct (rowid_fits id) eqn:Hfit;
    [by apply get_or_404_None | by apply get_or_404_unfit].
Qed.

End store_facts.

(** ** The order of the today view *)

Section order_facts.

Lemma compare_refl s : String.compare s s = Eq.
Proof. by apply String_as_OT.cmp_eq. Qed.

Lemma compare_Gt_lt s1 s2 :
  String.compare s1 s2 = Gt ↔ String_as_OT.lt s2 s1.
Proof.
  rewrite <- String_as_OT.cmp_lt. unfold String_as_OT.cmp.
  rewrite (String.compare_antisym s1 s2).
  destruct (String.compare s2 s1); cbn; split; congruence.
Qed.

Global Instance OrderBy_total : Total OrderBy.
Proof.
  intros [i1 t1] [i2 t2]. unfold OrderBy, order_by; cbn.
  rewrite (String.compare_antisym (status t2) (status t1)).
  destruct (String.compare (status t1) (status t2)); cbn; auto.
  rewrite !Z.leb_le. lia.
Qed.

Global Instance OrderBy_trans : Transitive OrderBy.
Proof.
  intros [i1 t1] [i2 t2] [i3 t3]. unfold OrderBy, order_by; cbn.
  destruct (String.compare (status t1) (status t2)) eqn:E12; [| done |];
    destruct (String.compare (status t2) (status t3)) eqn:E23; try done.
  - apply String_as_OT.cmp_eq in E12, E23.
    rewrite E12, E23, compare_refl, !Z.leb_le. lia.
  - apply String_as_OT.cmp_eq in E12. by rewrite E12, E23.
  - apply String_as_OT.cmp_eq in E23. by rewrite <- E23, E12.
  - apply compare_Gt_lt in E12, E23.
    pose proof (String_as_OT.lt_trans _ _ _ E23 E12) as H13.
    apply compare_Gt_lt in H13. by rewrite H13.
Qed.

(** A sorted list without repetition is sorted for any relation that
    agrees with the order on distinct elements of the list. *)
Lemma StronglySorted_distinct {A} (R S : relation A) (l : list A) :
  NoDup l →
  (∀ x y, x ∈ l → y ∈ l → x ≠ y → R x y → S x y) →
  StronglySorted R l → StronglySorted S l.
Proof.
  induction l as [|a l IH]; intros Hnd HRS Hs; [constructor |].
  apply NoDup_cons in Hnd as [Ha Hnd].
  apply StronglySorted_cons in Hs as [Hall Hs].
  apply StronglySorted_cons. split.
  - rewrite Forall_forall in Hall |- *. intros y Hy.
    apply HRS; [by left | by right | | by apply Hall].
    intros ->. contradiction.
  - apply IH; [done | | done].
    intros x y Hx Hy. apply HRS; by right.
Qed.

End order_facts.

(** ** GET /: the today view *)

Section today_view_facts.

Lemma Selected_Due today id t : Selected today (id, t) ↔ Due today t.
Proof.
  unfold Selected, selected, Due; cbn.
  rewrite andb_true_iff, orb_true_iff, !String.eqb_eq. done.
Qed.

Lemma today_before_scheduled : String.compare "today" "scheduled" = Gt.
Proof. reflexivity. Qed.

Lemma scheduled_after_today : String.compare "scheduled" "today" = Lt.
Proof. reflexivity. Qed.

(** On two different due rows of one table, the SQL order is the
    order of the design. *)
Lemma OrderBy_Before today (st : store) i1 t1 i2 t2 :
  st !! i1 = Some t1 → st !! i2 = Some t2 →
  Due today t1 → Due today t2 →
  (i1, t1) ≠ (i2, t2) →
  OrderBy (i1, t1) (i2, t2) → Before (i1, t1) (i2, t2).
Proof.
  intros H1 H2 [_ Hs1] [_ Hs2] Hne.
  assert (i1 ≠ i2) as Hi by (intros ->; congruence).
  unfold OrderBy, order_by, Before; cbn.
  destruct Hs1 as [-> | ->], Hs2 as [-> | ->];
    rewrite ?compare_refl, ?today_before_scheduled, ?scheduled_after_today;
    rewrite ?Z.leb_le; intros Ho; try done.
  - right. split; [done | lia].
  - by left.
  - right. split; [done | lia].
Qed.

Lemma Before_asym x y : Before x y → Before y x → False.
Proof.
  destruct x as [i1 t1], y as [i2 t2]. unfold Before; cbn.
  intros [[H1 H2] | [H1 H2]] [[H3 H4] | [H3 H4]]; try congruence; lia.
Qed.

(** The description of the design fits one list at most. *)
Lemma TodayList_unique today (st : store) l1 l2 :
  TodayList today st l1 → TodayList today st l2 → l1 = l2.
Proof.
  intros (Hm1 & Hnd1 & Hs1) (Hm2 & Hnd2 & Hs2).
  apply (StronglySorted_unique_strong Before); [| done | done |].
  - intros x y _ _ Hxy Hyx. destruct (Before_asym x y Hxy Hyx).
  - apply NoDup_Permutation; [done | done |].
    intros [id t]. by rewrite Hm1, Hm2.
Qed.

(** The sorted selection of the query is that list. *)
Lemma query_TodayList today (st : store) :
  TodayList today st
    (merge_sort OrderBy (filter (Selected today) (map_to_list (rows st)))).
Proof.
  set (l0 := filter (Selected today) (map_to_list (rows st))).
  pose proof (merge_sort_Permutation OrderBy l0) as Hperm.
  assert (Hmem : ∀ id t,
    (id, t) ∈ merge_sort OrderBy l0 ↔ st !! id = Some t ∧ Due today t).
  { intros id t. rewrite Hperm. unfold l0.
    rewrite list_elem_of_filter, elem_of_map_to_list, Selected_Due.
    unfold lookup at 2, store_lookup. tauto. }
  assert (Hnd : NoDup (merge_sort OrderBy l0)).
  { rewrite Hperm. apply NoDup_filter, NoDup_map_to_list. }
  split; [exact Hmem |]. split; [exact Hnd |].
  apply (StronglySorted_distinct OrderBy); [done | |].
  - intros [i1 t1] [i2 t2] Hx Hy Hne Ho.
    apply Hmem in Hx as [Hx1 Hx2]. apply Hmem in Hy as [Hy1 Hy2].
    by apply (OrderBy_Before today st).
  - apply StronglySorted_merge_sort; apply _.
Qed.

(** C1. For every table and every current date there is exactly one
    list [l] that holds the rows whose due date is today or earlier and
    whose status is "today" or "scheduled", and no others, each once,
    with every "today" row before every "scheduled" row and, among rows
    of equal status, the larger id first; the today view shows the
    first three rows of [l], all of [l] when it has fewer. *)
Theorem today_view_selects today (st : store) :
  ∃ l : list (Z * Task),
    TodayList today st l
    ∧ (∀ l', TodayList today st l' → l' = l)
    ∧ today_view today st = Rendered "today.html" today (take 3 l)
    ∧ length (take 3 l) = Nat.min 3 (length l).
Proof.
  exists (merge_sort OrderBy (filter (Selected today) (map_to_list (rows st)))).
  pose proof (query_TodayList today st) as Hl.
  split; [exact Hl |]. split.
  - intros l' Hl'. by apply (TodayList_unique today st).
  - split; [reflexivity | apply length_take].
Qed.

End today_view_facts.

(** ** Trimming *)

Section strip_facts.

Lemma append_cons c s t : String c s +:+ t = String c (s +:+ t).
Proof. reflexivity. Qed.

Lemma append_empty_l t : "" +:+ t = t.
Proof. reflexivity. Qed.

Lemma lstrip_split s :
  ∃ l, s = l +:+ Str.lstrip s
       ∧ Str.all_chars Str.isspace l = true
       ∧ starts_with_space (Str.lstrip s) = false.
Proof.
  induction s as [|c s (l & Hs & Hl & Hst)]; cbn [Str.lstrip].
  - by exists "".
  - destruct (Str.isspace c) eqn:Hc.
    + exists (String c l). rewrite append_cons, <- Hs.
      cbn [Str.all_chars]. by rewrite Hc, Hl.
    + exists "". by cbn [starts_with_space].
Qed.

Lemma rstrip_split s :
  ∃ r, s = Str.rstrip s +:+ r
       ∧ Str.all_chars Str.isspace r = true
       ∧ ends_with_space (Str.rstrip s) = false.
Proof.
  induction s as [|c s (r & Hs & Hr & Hend)]; cbn [Str.rstrip].
  - by exists "".
  - destruct (Str.rstrip s) as [|c' s'] eqn:Hrs.
    + destruct (Str.isspace c) eqn:Hc.
      * exists (String c r). rewrite append_empty_l in *. subst r.
        cbn [Str.all_chars]. by rewrite Hc, Hr.
      * exists r. rewrite append_cons, <- Hs.
        cbn [ends_with_space]. by rewrite Hc.
    + exists r. rewrite append_cons, <- Hs. done.
Qed.

Lemma rstrip_starts s :
  starts_with_space s = false → starts_with_space (Str.rstrip s) = false.
Proof.
  destruct s as [|c s]; [done |]. cbn [starts_with_space Str.rstrip].
  intros Hc. destruct (Str.rstrip s); [rewrite Hc |]; done.
Qed.

Lemma append_assoc (a b c : string) : (a +:+ b) +:+ c = a +:+ b +:+ c.
Proof. induction a as [|x a IH]; [done |]. by rewrite !append_cons, IH. Qed.

(** [strip] trims. *)
Lemma strip_Trimmed raw : Trimmed raw (Str.strip raw).
Proof.
  unfold Str.strip.
  destruct (lstrip_split raw) as (l & Hraw & Hl & Hst).
  destruct (rstrip_split (Str.lstrip raw)) as (r & Hmid & Hr & Hend).
  split; [| split; [by apply rstrip_starts | done]].
  exists l, r. split; [| done]. by rewrite <- Hmid.
Qed.

Lemma lstrip_id s : starts_with_space s = false → Str.lstrip s = s.
Proof. destruct s as [|c s]; [done |]. cbn. by intros ->. Qed.

Lemma rstrip_id s : ends_with_space s = false → Str.rstrip s = s.
Proof.
  induction s as [|c s IH]; [done |]. cbn [ends_with_space Str.rstrip].
  destruct s as [|c' s].
  - cbn [Str.rstrip]. by intros ->.
  - intros H. by rewrite (IH H).
Qed.

Lemma lstrip_app l u :
  Str.all_chars Str.isspace l = true → Str.lstrip (l +:+ u) = Str.lstrip u.
Proof.
  induction l as [|c l IH]; [done |]. cbn [Str.all_chars].
  intros [Hc Hl]%andb_prop. rewrite append_cons. cbn [Str.lstrip].
  rewrite Hc. auto.
Qed.

Lemma lstrip_allspace r :
  Str.all_chars Str.isspace r = true → Str.lstrip r = "".
Proof.
  induction r as [|c r IH]; [done |]. cbn [Str.all_chars Str.lstrip].
  intros [-> Hr]%andb_prop. auto.
Qed.

Lemma rstrip_allspace r :
  Str.all_chars Str.isspace r = true → Str.rstrip r = "".
Proof.
  induction r as [|c r IH]; [done |]. cbn [Str.all_chars Str.rstrip].
  intros [Hc Hr]%andb_prop. by rewrite (IH Hr), Hc.
Qed.

Lemma rstrip_app t r :
  Str.all_chars Str.isspace r = true → Str.rstrip (t +:+ r) = Str.rstrip t.
Proof.
  intros Hr. induction t as [|c t IH].
  - rewrite append_empty_l. by apply rstrip_allspace.
  - rewrite append_cons. cbn [Str.rstrip]. by rewrite IH.
Qed.

(** Nothing else is the trimmed string: [Trimmed] describes [strip]. *)
Lemma Trimmed_strip raw t : Trimmed raw t ↔ t = Str.strip raw.
Proof.
  split; [| intros ->; apply strip_Trimmed].
  intros ((l & r & -> & Hl & Hr) & Hst & Hend). unfold Str.strip.
  rewrite (lstrip_app l _ Hl).
  destruct t as [|c t].
  - rewrite append_empty_l, (lstrip_allspace r Hr). done.
  - rewrite append_cons. cbn [starts_with_space] in Hst.
    cbn [Str.lstrip]. rewrite Hst, <- append_cons.
    rewrite (rstrip_app _ r Hr). symmetry. by apply rstrip_id.
Qed.

End strip_facts.

(** ** POST /add *)

Section add_facts.

Lemma fromisoformat_Raise s e :
  Date.fromisoformat s = Raise e → e = ValueError_isoformat s.
Proof.
  unfold Date.fromisoformat. destruct (Date.parse_isoformat s); congruence.
Qed.

Lemma fromisoformat_not_ok s :
  is_ok (Date.fromisoformat s) = false →
  Date.fromisoformat s = Raise (ValueError_isoformat s).
Proof.
  unfold Date.fromisoformat. by destruct (Date.parse_isoformat s).
Qed.

Lemma int_Raise s e : Str.int s = Raise e → e = ValueError_int s.
Proof.
  unfold Str.int. repeat case_match; congruence.
Qed.

Lemma pomos_of_Raise form e :
  pomos_of form = Raise e → ∃ raw, e = ValueError_int raw.
Proof.
  unfold pomos_of. case_match; [| done].
  intros He%int_Raise. eauto.
Qed.

(** Line 90 with the field missing or empty: today's date, printed
    and parsed again. *)
Lemma due_of_default today form :
  Date.valid today = true →
  form_get form "due" = None ∨ form_get form "due" = Some "" →
  due_of today form = Ok today.
Proof.
  intros Hv [Hdue | Hdue]; unfold due_of; rewrite Hdue; cbn [opt_or Str.or_];
    by apply fromisoformat_isoformat.
Qed.

Lemma due_of_given today form s :
  form_get form "due" = Some s → s ≠ "" →
  due_of today form = Date.fromisoformat s.
Proof.
  intros Hdue Hs. unfold due_of. rewrite Hdue. cbn [opt_or].
  by destruct s.
Qed.

Lemma add_task_Ok today now form st n d :
  pomos_of form = Ok n → due_of today form = Ok d →
  add_task today now form st
  = Ok (<[next_id st := new_task today now form n d]> st,
        Redirect "today_view").
Proof. unfold add_task. by intros -> ->. Qed.

Lemma add_task_inv today now form st st' r :
  add_task today now form st = Ok (st', r) →
  ∃ n d, pomos_of form = Ok n ∧ due_of today form = Ok d
         ∧ st' = <[next_id st := new_task today now form n d]> st
         ∧ r = Redirect "today_view".
Proof.
  unfold add_task.
  destruct (pomos_of form) as [n|]; [| done].
  destruct (due_of today form) as [d|]; [| done].
  cbn. intros [= <- <-]. by exists n, d.
Qed.

Lemma add_task_Raise_due today now form st n e :
  pomos_of form = Ok n → due_of today form = Raise e →
  add_task today now form st = Raise e.
Proof. unfold add_task. by intros -> ->. Qed.

End add_facts.

(** ** The pomos field *)

Section pomos_facts.

Ltac bool_cases :=
  repeat match goal with
    | |- context [?a <=? ?b] => destruct (Z.leb_spec a b)
    | |- context [?a <? ?b] => destruct (Z.ltb_spec a b)
    | |- context [?a =? ?b] => destruct (Z.eqb_spec a b)
    end; cbn; try lia; try reflexivity.

Lemma isdecimal_range c :
  Str.isdecimal_char c = true ↔ 48 <= Str.ord c <= 57.
Proof. unfold Str.isdecimal_char. rewrite andb_true_iff, !Z.leb_le. done. Qed.

Lemma isdecimal_not_space c :
  Str.isdecimal_char c = true → Str.isspace c = false.
Proof.
  intros H%isdecimal_range. unfold Str.isspace. cbn zeta. bool_cases.
Qed.

Lemma isdecimal_isdigit c :
  Str.isdecimal_char c = true → Str.isdigit_char c = true.
Proof. unfold Str.isdigit_char. by intros ->. Qed.

Lemma all_decimal_isdigit s :
  s ≠ "" → Str.all_chars Str.isdecimal_char s = true → Str.isdigit s = true.
Proof.
  intros Hne Hall. unfold Str.isdigit. destruct s as [|c s]; [done |].
  clear Hne. revert Hall. generalize (String c s). clear c s.
  induction s as [|c s IH]; cbn [Str.all_chars]; [done |].
  intros [Hc Hs]%andb_prop. by rewrite (isdecimal_isdigit c Hc), IH.
Qed.

Lemma all_decimal_ends s :
  Str.all_chars Str.isdecimal_char s = true → ends_with_space s = false.
Proof.
  induction s as [|c s IH]; [done |]. cbn [Str.all_chars ends_with_space].
  intros [Hc Hs]%andb_prop. destruct s; [by apply isdecimal_not_space | auto].
Qed.

Lemma all_decimal_strip s :
  Str.all_chars Str.isdecimal_char s = true → Str.strip s = s.
Proof.
  intros Hall. unfold Str.strip. rewrite lstrip_id.
  - by apply rstrip_id, all_decimal_ends.
  - destruct s as [|c s]; [done |]. cbn in *.
    apply andb_prop in Hall as [Hc _]. by apply isdecimal_not_space.
Qed.

Lemma isdecimal_neq c (x : ascii) :
  Str.isdecimal_char c = true → Str.isdecimal_char x = false →
  Ascii.eqb c x = false.
Proof. intros Hc Hx. destruct (Ascii.eqb_spec c x); congruence. Qed.

Lemma int_digits_decimal s acc seen :
  Str.all_chars Str.isdecimal_char s = true →
  s ≠ "" ∨ seen = true →
  Str.int_digits acc seen s = Some (decimal_value acc s).
Proof.
  revert acc seen. induction s as [|c s IH]; intros acc seen Hall Hne.
  - destruct Hne as [? | ->]; done.
  - cbn [Str.all_chars] in Hall. apply andb_prop in Hall as [Hc Hs].
    cbn [Str.int_digits decimal_value].
    rewrite (isdecimal_neq c "_" Hc) by reflexivity.
    unfold Str.digit_value. rewrite Hc. apply IH; auto.
Qed.

Lemma count_digits_length s :
  0 <= Str.count_digits s <= Z.of_nat (String.length s).
Proof.
  induction s as [|c s IH]; cbn [Str.count_digits String.length]; [lia |].
  destruct (Str.isdecimal_char c); lia.
Qed.

(** [int] on a non-empty string of decimal digits, within the cap, is
    its value. *)
Lemma int_decimal s :
  s ≠ "" → Str.all_chars Str.isdecimal_char s = true →
  Z.of_nat (String.length s) <= Str.int_max_str_digits →
  Str.int s = Ok (decimal_value 0 s).
Proof.
  intros Hne Hall Hlen. unfold Str.int. rewrite (all_decimal_strip s Hall).
  destruct s as [|c s]; [done |].
  pose proof Hall as Hall'. cbn [Str.all_chars] in Hall'.
  apply andb_prop in Hall' as [Hc _].
  rewrite (isdecimal_neq c "-" Hc), (isdecimal_neq c "+" Hc) by reflexivity.
  rewrite (int_digits_decimal _ 0 false Hall) by auto.
  pose proof (count_digits_length (String c s)) as Hcount.
  destruct (Z.ltb_spec Str.int_max_str_digits (Str.count_digits (String c s)));
    [lia |].
  f_equal. lia.
Qed.

Lemma clamp_1_8_max_min n : Z.max 1 (Z.min n 8) = clamp_1_8 n.
Proof. unfold clamp_1_8. bool_cases. Qed.

Lemma clamp_1_8_range n : 1 <= Z.max 1 (Z.min n 8) <= 8.
Proof. lia. Qed.

(** A field made of decimal digits is read as its value. *)
Lemma pomos_of_decimal form raw :
  form_get form "pomos" = Some raw → raw ≠ "" →
  Str.all_chars Str.isdecimal_char raw = true →
  Z.of_nat (String.length raw) <= Str.int_max_str_digits →
  pomos_of form = Ok (decimal_value 0 raw).
Proof.
  intros Hget Hne Hall Hlen. unfold pomos_of. rewrite Hget.
  destruct raw as [|c raw]; [done |].
  cbn -[Str.isdigit Str.int String.length].
  rewrite (all_decimal_isdigit _ Hne Hall). by apply int_decimal.
Qed.

(** A field that [isdigit] refuses, and a missing or empty one, give 1. *)
Lemma pomos_of_not_digit form raw :
  form_get form "pomos" = Some raw → Str.isdigit raw = false →
  pomos_of form = Ok 1.
Proof.
  intros Hget Hd. unfold pomos_of. rewrite Hget.
  destruct raw; [done |]. cbn -[Str.isdigit Str.int]. by rewrite Hd.
Qed.

Lemma pomos_of_missing form :
  form_get form "pomos" = None → pomos_of form = Ok 1.
Proof. intros Hget. unfold pomos_of. by rewrite Hget. Qed.


End pomos_facts.

(** ** The add action, claim by claim *)

Section add_claims.

(** C3 (the code departs from it). A pomos field that [isdigit]
    accepts and [int] refuses aborts the request: with the superscript
    two as pomos, no row is stored, where the design stores an
    estimate of 1.  The three examples of the design do hold. *)
Theorem add_task_superscript_pomos today now (st : store) :
  Str.isdigit superscript_two = true
  ∧ Str.int superscript_two = Raise (ValueError_int superscript_two)
  ∧ add_task today now [("title", "Read ch.3"); ("pomos", superscript_two)] st
    = Raise (ValueError_int superscript_two)
  ∧ pomos_of [("pomos", "0")] = Ok 0 ∧ Z.max 1 (Z.min 0 8) = 1
  ∧ pomos_of [("pomos", "99")] = Ok 99 ∧ Z.max 1 (Z.min 99 8) = 8
  ∧ pomos_of [("pomos", "abc")] = Ok 1 ∧ Z.max 1 (Z.min 1 8) = 1.
Proof. repeat split; reflexivity. Qed.








Lemma form_get_same_fields (form1 form2 : Form) :
  (∀ k, k ≠ "due" → form_get form1 k = form_get form2 k) →
  title_of form1 = title_of form2 ∧ source_of form1 = source_of form2
  ∧ tags_of form1 = tags_of form2 ∧ pomos_of form1 = pomos_of form2.
Proof.
  intros Hsame. unfold title_of, source_of, tags_of, pomos_of.
  by rewrite !Hsame.
Qed.



End add_claims.

(** ** The done and delete actions *)

Section done_delete_claims.

Lemma mark_done_Some today id (st : store) t :
  st !! id = Some t →
  mark_done today id st
  = Ok (<[id := done_on today t]> st, Redirect "today_view").
Proof. intros Hid. unfold mark_done. by rewrite (get_or_404_Some st id t). Qed.

Lemma mark_done_None today id (st : store) :
  rowid_fits id = true → st !! id = None →
  mark_done today id st = Raise NotFound.
Proof. intros Hfit Hid. unfold mark_done. by rewrite get_or_404_None. Qed.

Lemma mark_done_unfit today id (st : store) :
  rowid_fits id = false → mark_done today id st = Raise OverflowError.
Proof. intros Hfit. unfold mark_done. by rewrite get_or_404_unfit. Qed.

Lemma delete_task_Some id (st : store) t :
  st !! id = Some t →
  delete_task id st = Ok (delete id st, Redirect "today_view").
Proof. intros Hid. unfold delete_task. by rewrite (get_or_404_Some st id t). Qed.

Lemma delete_task_None id (st : store) :
  rowid_fits id = true → st !! id = None →
  delete_task id st = Raise NotFound.
Proof. intros Hfit Hid. unfold delete_task. by rewrite get_or_404_None. Qed.

Lemma delete_task_unfit id (st : store) :
  rowid_fits id = false → delete_task id st = Raise OverflowError.
Proof. intros Hfit. unfold delete_task. by rewrite get_or_404_unfit. Qed.

Lemma mark_done_inv today id (st st' : store) r :
  mark_done today id st = Ok (st', r) →
  ∃ t, st !! id = Some t ∧ st' = <[id := done_on today t]> st
       ∧ r = Redirect "today_view".
Proof.
  unfold mark_done. rewrite get_or_404_cases.
  destruct (st !! id) as [t|]; [| by destruct (rowid_fits id)].
  cbn. intros [= <- <-]. by exists t.
Qed.

Lemma delete_task_inv id (st st' : store) r :
  delete_task id st = Ok (st', r) →
  ∃ t, st !! id = Some t ∧ st' = delete id st ∧ r = Redirect "today_view".
Proof.
  unfold delete_task. rewrite get_or_404_cases.
  destruct (st !! id) as [t|]; [| by destruct (rowid_fits id)].
  cbn. intros [= <- <-]. by exists t.
Qed.

Lemma store_lookup_unfit (st : store) id : rowid_fits id = false → st !! id = None.
Proof.
  intros Hfit. destruct (st !! id) as [t|] eqn:Hid; [| done].
  apply store_lookup_fits in Hid. congruence.
Qed.

(** C6 (the code departs from it). For the id 2^63, which no table
    holds, marking done does not fail with NotFound: the driver cannot
    bind the id and raises OverflowError, as for every id beyond 64
    bits.  For an id that fits, the action is as the design says: it
    fails with NotFound exactly when the table has no row with that
    id; otherwise it commits the table in which that row, and no other,
    is changed: its status is "done", its completion date is today, its
    other columns are kept; and the response redirects to the today
    view. *)
Theorem mark_done_spec today id (st : store) :
  (st !! 9223372036854775808 = None
   ∧ mark_done today 9223372036854775808 st = Raise OverflowError)
  ∧ (rowid_fits id = false →
       st !! id = None ∧ mark_done today id st = Raise OverflowError)
  ∧ (rowid_fits id = true →
       (mark_done today id st = Raise NotFound ↔ st !! id = None))
  ∧ match st !! id with
    | None =>
        mark_done today id st
        = if rowid_fits id then Raise NotFound else Raise OverflowError
    | Some t =>
        ∃ st' t',
          mark_done today id st = Ok (st', Redirect "today_view")
          ∧ st' !! id = Some t'
          ∧ (∀ j, j ≠ id → st' !! j = st !! j)
          ∧ status t' = "done" ∧ completed_at t' = Some today
          ∧ title t' = title t ∧ source t' = source t ∧ tags t' = tags t
          ∧ estimate_pomos t' = estimate_pomos t
          ∧ actual_pomos t' = actual_pomos t
          ∧ due_date t' = due_date t ∧ created_at t' = created_at t
    end.
Proof.
  split; [| split; [| split]].
  - split; [by apply store_lookup_unfit | by apply mark_done_unfit].
  - intros Hfit. split; [by apply store_lookup_unfit | by apply mark_done_unfit].
  - intros Hfit. destruct (st !! id) as [t|] eqn:Hid.
    + rewrite (mark_done_Some today id st t Hid). split; done.
    + by rewrite (mark_done_None today id st Hfit Hid).
  - destruct (st !! id) as [t|] eqn:Hid.
    + pose proof (store_lookup_fits st id t Hid) as Hfit.
      exists (<[id := done_on today t]> st), (done_on today t).
      split; [by apply mark_done_Some |].
      split; [by rewrite store_lookup_insert_eq |].
      split; [intros j Hj; by rewrite store_lookup_insert_ne |].
      repeat split.
    + destruct (rowid_fits id) eqn:Hfit;
        [by apply mark_done_None | by apply mark_done_unfit].
Qed.

(** C7. On an existing row, marking done a second time on the same
    date commits the table the first call left and gives the same
    response; after the row is deleted, marking done fails with
    NotFound. *)
Theorem mark_done_twice today id (st : store) t :
  st !! id = Some t →
  ∃ st1 r,
    mark_done today id st = Ok (st1, r)
    ∧ mark_done today id st1 = Ok (st1, r)
    ∧ ∃ st2 r2,
        delete_task id st1 = Ok (st2, r2)
        ∧ mark_done today id st2 = Raise NotFound.
Proof.
  intros Hid. pose proof (store_lookup_fits st id t Hid) as Hfit.
  exists (<[id := done_on today t]> st), (Redirect "today_view").
  split; [by apply mark_done_Some |]. split.
  - rewrite (mark_done_Some today id _ (done_on today t))
      by (by apply store_lookup_insert_eq).
    by rewrite store_insert_insert_eq.
  - exists (delete id (<[id := done_on today t]> st)), (Redirect "today_view").
    split.
    + by apply (delete_task_Some _ _ (done_on today t)), store_lookup_insert_eq.
    + apply mark_done_None; [done | apply store_lookup_delete_eq].
Qed.

Lemma mark_done_twice_witness :
  one_open !! 1 = Some (new_task a_day 0 read_ch3 5 a_day)
  ∧ ∃ st1 r,
      mark_done a_day 1 one_open = Ok (st1, r)
      ∧ mark_done a_day 1 st1 = Ok (st1, r)
      ∧ ∃ st2 r2,
          delete_task 1 st1 = Ok (st2, r2)
          ∧ mark_done a_day 1 st2 = Raise NotFound.
Proof.
  split; [reflexivity |].
  apply (mark_done_twice a_day 1 one_open (new_task a_day 0 read_ch3 5 a_day)).
  reflexivity.
Defined.

(** C8 (the code departs from it). For the id 2^63, which no table
    holds, deleting does not fail with NotFound: the driver cannot bind
    the id and raises OverflowError, as for every id beyond 64 bits.
    For an id that fits, the action is as the design says: it fails
    with NotFound exactly when the table has no row with that id;
    otherwise it commits the table without that row, the other rows
    untouched, so that fetching the id afterwards, and marking it done
    or deleting it again, fails with NotFound. *)
Theorem delete_task_spec id (st : store) :
  (st !! 9223372036854775808 = None
   ∧ delete_task 9223372036854775808 st = Raise OverflowError)
  ∧ (rowid_fits id = false →
       st !! id = None ∧ delete_task id st = Raise OverflowError)
  ∧ (rowid_fits id = true →
       (delete_task id st = Raise NotFound ↔ st !! id = None))
  ∧ match st !! id with
    | None =>
        delete_task id st
        = if rowid_fits id then Raise NotFound else Raise OverflowError
    | Some _ =>
        ∃ st',
          delete_task id st = Ok (st', Redirect "today_view")
          ∧ st' !! id = None
          ∧ (∀ j, j ≠ id → st' !! j = st !! j)
          ∧ get_or_404 st' id = Raise NotFound
          ∧ (∀ today, mark_done today id st' = Raise NotFound)
          ∧ delete_task id st' = Raise NotFound
    end.
Proof.
  split; [| split; [| split]].
  - split; [by apply store_lookup_unfit | by apply delete_task_unfit].
  - intros Hfit. split; [by apply store_lookup_unfit | by apply delete_task_unfit].
  - intros Hfit. destruct (st !! id) as [t|] eqn:Hid.
    + rewrite (delete_task_Some id st t Hid). split; done.
    + by rewrite (delete_task_None id st Hfit Hid).
  - destruct (st !! id) as [t|] eqn:Hid.
    + pose proof (store_lookup_fits st id t Hid) as Hfit.
      exists (delete id st).
      pose proof (store_lookup_delete_eq st id) as Hgone.
      split; [by apply (delete_task_Some id st t) |].
      split; [done |].
      split; [intros j Hj; by rewrite store_lookup_delete_ne |].
      split; [by apply get_or_404_None |].
      split; [intros today; by apply mark_done_None |].
      by apply delete_task_None.
    + destruct (rowid_fits id) eqn:Hfit;
        [by apply delete_task_None | by apply delete_task_unfit].
Qed.

End done_delete_claims.

(** ** Invariants of the reachable tables *)

Section invariants.

Lemma status_of_not_done today due : status_of today due ≠ "done".
Proof. unfold status_of. by case_decide. Qed.

Lemma new_task_inv today now form n d : task_inv (new_task today now form n d).
Proof.
  split; cbn [new_task estimate_pomos completed_at status]; [lia |].
  split.
  - by intros [? ?].
  - intros Hs. by apply status_of_not_done in Hs.
Qed.

Lemma done_on_inv today t : task_inv t → task_inv (done_on today t).
Proof.
  intros [Hest _]. split; cbn [done_on estimate_pomos completed_at status];
    [done |]. split; eauto.
Qed.

(** A request that goes through keeps the invariant of every row. *)
Lemma run_preserves_inv a (st st' : store) r :
  store_Forall (λ _, task_inv) st → run a st = Ok (st', r) →
  store_Forall (λ _, task_inv) st'.
Proof.
  intros Hinv Hrun. destruct a as [today now form | today id | id];
    cbn [run] in Hrun.
  - apply add_task_inv in Hrun as (n & d & _ & _ & -> & _).
    apply store_Forall_insert; [apply new_task_inv | done].
  - apply mark_done_inv in Hrun as (t & Hid & -> & _).
    apply store_Forall_insert; [| done].
    apply done_on_inv. by apply (Hinv id).
  - apply delete_task_inv in Hrun as (t & Hid & -> & _).
    by apply store_Forall_delete.
Qed.

Lemma reachable_inv (st : store) :
  reachable st → store_Forall (λ _, task_inv) st.
Proof.
  induction 1 as [| st a st' r _ IH Hrun].
  - apply store_Forall_empty.
  - by apply (run_preserves_inv a st st' r).
Qed.

(** One request leaves the status of a row as it was, or makes it
    "done". *)
Lemma run_status a (st st' : store) r id t t' :
  run a st = Ok (st', r) → st !! id = Some t → st' !! id = Some t' →
  status t' = status t ∨ status t' = "done".
Proof.
  intros Hrun Hid Hid'. destruct a as [today now form | today k | k];
    cbn [run] in Hrun.
  - apply add_task_inv in Hrun as (n & d & _ & _ & -> & _).
    assert (next_id st ≠ id) as Hne.
    { intros <-. rewrite next_id_fresh in Hid. done. }
    rewrite store_lookup_insert_ne in Hid' by done. left. congruence.
  - apply mark_done_inv in Hrun as (tk & Hk & -> & _).
    destruct (decide (k = id)) as [-> | Hne].
    + rewrite store_lookup_insert_eq in Hid'
        by (by apply (store_lookup_fits st id t)).
      injection Hid' as <-. by right.
    + rewrite store_lookup_insert_ne in Hid' by done. left. congruence.
  - apply delete_task_inv in Hrun as (tk & Hk & -> & _).
    destruct (decide (k = id)) as [-> | Hne].
    + by rewrite store_lookup_delete_eq in Hid'.
    + rewrite store_lookup_delete_ne in Hid' by done. left. congruence.
Qed.

(** C2. In every table reachable from the empty one by add, done and
    delete requests, every row has its estimate in [1,8] and has a
    completion date exactly when its status is "done"; and no request
    changes the status of a row otherwise than to "done", so a row
    that is done stays done as long as it exists. *)
Theorem reachable_invariants (st : store) :
  reachable st →
  (∀ id t, st !! id = Some t →
     1 <= estimate_pomos t <= 8
     ∧ (is_Some (completed_at t) ↔ status t = "done"))
  ∧ (∀ a st' r id t t',
       run a st = Ok (st', r) → st !! id = Some t → st' !! id = Some t' →
       (status t' = status t ∨ status t' = "done")
       ∧ (status t = "done" → status t' = "done")).
Proof.
  intros Hreach. split.
  - intros id t Hid. by apply (reachable_inv st Hreach id t).
  - intros a st' r id t t' Hrun Hid Hid'.
    destruct (run_status a st st' r id t t' Hrun Hid Hid') as [Hs | Hs].
    + split; [by left |]. congruence.
    + split; [by right | done].
Qed.

Lemma reachable_one_done : reachable one_done.
Proof.
  apply (reachable_step one_open (Done a_day 1) one_done
           (Redirect "today_view")); [| reflexivity].
  apply (reachable_step ∅ (Add a_day 0 read_ch3) one_open
           (Redirect "today_view")); [| reflexivity].
  apply reachable_empty.
Defined.

Lemma reachable_invariants_witness :
  reachable one_done
  ∧ (∀ id t, one_done !! id = Some t →
       1 <= estimate_pomos t <= 8
       ∧ (is_Some (completed_at t) ↔ status t = "done"))
  ∧ (∀ a st' r id t t',
       run a one_done = Ok (st', r) →
       one_done !! id = Some t → st' !! id = Some t' →
       (status t' = status t ∨ status t' = "done")
       ∧ (status t = "done" → status t' = "done")).
Proof.
  split; [exact reachable_one_done |].
  apply (reachable_invariants one_done). exact reachable_one_done.
Defined.

End invariants.

(** ** The examples of the design *)

Section examples.

(** title "Read ch.3", due today, pomos "5": status "today", estimate
    5, shown in the today view. *)
Example read_ch3_today :
  add_task a_day 0 read_ch3 ∅ = Ok (one_open, Redirect "today_view")
  ∧ today_items a_day one_open
    = [(1, {| title := "Read ch.3"; source := Some "Grokking ch4";
              tags := ""; estimate_pomos := 5; actual_pomos := 0;
              due_date := a_day; status := "today"; created_at := 0;
              completed_at := None |})].
Proof. split; reflexivity. Qed.

(** title "", due "2099-01-01": "Untitled Task", "scheduled", not in
    the today view. *)
Example untitled_2099_scheduled :
  ∃ t, add_task a_day 0 untitled_2099 ∅
       = Ok ({[1 := t]}, Redirect "today_view")
     ∧ title t = "Untitled Task" ∧ status t = "scheduled"
     ∧ today_items a_day {[1 := t]} = []
     ∧ today_items (Date 2099 1 1) {[1 := t]} = [(1, t)].
Proof. eexists. repeat split; reflexivity. Qed.

Example one_done_not_shown : today_items a_day one_done = [].
Proof. reflexivity. Qed.

(** A pomos of decimal digits longer than the cap of [int] aborts the
    request as well. *)
Example pomos_over_the_cap :
  let raw := repeat_char "1" 4301 in
  Str.isdigit raw = true
  ∧ add_task a_day 0 [("pomos", raw)] ∅ = Raise (ValueError_int raw).
Proof. vm_compute. split; reflexivity. Qed.

Example strip_whitespace : Str.strip "  Read ch.3 " = "Read ch.3".
Proof. reflexivity. Qed.

Example int_leading_zeros : Str.int "0012" = Ok 12.
Proof. reflexivity. Qed.

Example isoformat_pads : Date.isoformat a_day = "2025-03-09".
Proof. reflexivity. Qed.

Example bad_due_rejected :
  add_task a_day 0 bad_due ∅ = Raise (ValueError_isoformat "tomorrow").
Proof. reflexivity. Qed.

(** The compact and the week forms are read too, and what follows a
    complete date in a string of ten bytes is not looked at. *)
Example compact_date : Date.fromisoformat "20250309" = Ok (Date 2025 3 9).
Proof. reflexivity. Qed.

Example week_date : Date.fromisoformat "2025-W10-7" = Ok (Date 2025 3 9).
Proof. reflexivity. Qed.

Example week_53 :
  Date.fromisoformat "2020-W53-1" = Ok (Date 2020 12 28)
  ∧ Date.fromisoformat "2025-W53-1" = Raise (ValueError_isoformat "2025-W53-1").
Proof. split; reflexivity. Qed.

Example trailing_bytes : Date.fromisoformat "2025030912" = Ok (Date 2025 3 9).
Proof. reflexivity. Qed.

Example mixed_separators :
  Date.fromisoformat "2025-0309" = Raise (ValueError_isoformat "2025-0309").
Proof. reflexivity. Qed.

(** An id beyond 64 bits aborts the done and the delete action. *)
Example done_beyond_64_bits :
  mark_done a_day 9223372036854775808 one_open = Raise OverflowError
  ∧ delete_task 9223372036854775808 one_open = Raise OverflowError
  ∧ mark_done a_day 7 one_open = Raise NotFound.
Proof. repeat split; reflexivity. Qed.

Example leap_day : Date.fromisoformat "2024-02-29" = Ok (Date 2024 2 29).
Proof. reflexivity. Qed.

Example no_leap_day :
  Date.fromisoformat "2025-02-29" = Raise (ValueError_isoformat "2025-02-29").
Proof. reflexivity. Qed.

End examples.

(** * Further properties of the handlers *)

(** ** Task.tag_list *)

Section tag_list_facts.

Lemma or_empty s : Str.or_ s "" = s.
Proof. by destruct s. Qed.

Lemma str_split_not_nil sep s : str_split sep s ≠ [].
Proof.
  destruct s as [|c s]; cbn [str_split]; [done |].
  destruct (Ascii.eqb c sep); [done |]. by destruct (str_split sep s).
Qed.

Lemma str_split_no_sep sep s :
  Forall (λ x, Str.all_chars (λ c, negb (Ascii.eqb c sep)) x = true)
    (str_split sep s).
Proof.
  induction s as [|c s IH]; cbn [str_split].
  - by repeat constructor.
  - destruct (Ascii.eqb c sep) eqn:Hc; [by constructor |].
    destruct (str_split sep s) as [|x xs]; [by repeat constructor; cbn; rewrite Hc |].
    apply Forall_cons in IH as [Hx Hxs]. constructor; [| done].
    cbn [Str.all_chars]. by rewrite Hc, Hx.
Qed.

(** X1. Every tag that [tag_list] returns is a non-empty string without
    a semicolon. *)
Theorem tag_list_clean (self : Task) :
  Forall (λ x, x ≠ "" ∧ no_semicolon x = true) (tag_list self).
Proof.
  unfold tag_list. rewrite or_empty. apply Forall_forall. intros x Hx.
  apply list_elem_of_filter in Hx as [Hne Hx]. split; [done |].
  pose proof (str_split_no_sep ";" (tags self)) as Hall.
  rewrite Forall_forall in Hall. by apply Hall.
Qed.

Lemma str_split_whole sep x :
  Str.all_chars (λ c, negb (Ascii.eqb c sep)) x = true →
  str_split sep x = [x].
Proof.
  induction x as [|c x IH]; [done |]. cbn [Str.all_chars str_split].
  intros [Hc Hx]%andb_prop. apply negb_true_iff in Hc.
  by rewrite Hc, (IH Hx).
Qed.

Lemma str_split_app sep x rest :
  Str.all_chars (λ c, negb (Ascii.eqb c sep)) x = true →
  str_split sep (x +:+ String sep rest) = x :: str_split sep rest.
Proof.
  induction x as [|c x IH].
  - intros _. rewrite append_empty_l. cbn [str_split].
    by rewrite Ascii.eqb_refl.
  - cbn [Str.all_chars]. intros [Hc Hx]%andb_prop.
    apply negb_true_iff in Hc. rewrite append_cons. cbn [str_split].
    by rewrite Hc, (IH Hx).
Qed.

(** Splitting what [join] glued gives the pieces back. *)
Lemma str_split_join sep l :
  l ≠ [] →
  Forall (λ x, Str.all_chars (λ c, negb (Ascii.eqb c sep)) x = true) l →
  str_split sep (str_join sep l) = l.
Proof.
  induction l as [|x l IH]; [done |]. intros _ [Hx Hl]%Forall_cons.
  destruct l as [|y l].
  - cbn [str_join]. by apply str_split_whole.
  - change (str_join sep (x :: y :: l))
      with (x +:+ String sep (str_join sep (y :: l))).
    rewrite (str_split_app sep x _ Hx). f_equal. by apply IH.
Qed.

Lemma filter_truthy_id (l : list string) :
  Forall (λ x, x ≠ "") l → filter truthy l = l.
Proof.
  induction 1 as [|x l Hx _ IH]; [done |].
  rewrite filter_cons_True by done. by rewrite IH.
Qed.

(** X2. A row whose tags column is the join with semicolons of
    non-empty, semicolon-free tags gives exactly these tags back, in
    order. *)
Theorem tag_list_join (self : Task) (l : list string) :
  Forall (λ x, x ≠ "" ∧ no_semicolon x = true) l →
  tags self = str_join ";" l →
  tag_list self = l.
Proof.
  intros Hl Htags. unfold tag_list. rewrite or_empty, Htags.
  destruct l as [|x l]; [done |].
  rewrite str_split_join; [| done |].
  - apply filter_truthy_id. eapply Forall_impl; [exact Hl |]. by intros ? [? _].
  - eapply Forall_impl; [exact Hl |]. by intros ? [_ ?].
Qed.

Lemma tag_list_join_witness :
  Forall (λ x, x ≠ "" ∧ no_semicolon x = true) ["DSA"; "Python"]
  ∧ tags dsa_python = str_join ";" ["DSA"; "Python"]
  ∧ tag_list dsa_python = ["DSA"; "Python"].
Proof.
  assert (H : Forall (λ x, x ≠ "" ∧ no_semicolon x = true) ["DSA"; "Python"])
    by (repeat constructor; done).
  split; [exact H |]. split; [reflexivity |].
  apply (tag_list_join dsa_python ["DSA"; "Python"]); [exact H | reflexivity].
Defined.

Lemma filter_split_nil s :
  filter truthy (str_split ";" s) = [] ↔ Str.all_chars is_semicolon s = true.
Proof.
  induction s as [|c s IH]; cbn [str_split Str.all_chars]; [done |].
  unfold is_semicolon at 1. destruct (Ascii.eqb c ";") eqn:Hc.
  - rewrite filter_cons_False by (by intros ?). by rewrite IH.
  - pose proof (str_split_not_nil ";" s) as Hne.
    destruct (str_split ";" s) as [|x xs]; [done |].
    rewrite filter_cons_True by done. done.
Qed.

(** X3. [tag_list] returns no tag exactly when the tags column holds
    nothing but semicolons, the empty string included. *)
Theorem tag_list_nil (self : Task) :
  tag_list self = [] ↔ Str.all_chars is_semicolon (tags self) = true.
Proof. unfold tag_list. rewrite or_empty. apply filter_split_nil. Qed.

(** The pieces of [split], glued again, are the string. *)
Lemma str_join_split sep s : str_join sep (str_split sep s) = s.
Proof.
  induction s as [|c s IH]; [done |]. cbn [str_split].
  pose proof (str_split_not_nil sep s) as Hne.
  destruct (Ascii.eqb_spec c sep) as [-> | Hc].
  - destruct (str_split sep s) as [|x xs]; [done |].
    change (str_join sep ("" :: x :: xs))
      with ("" +:+ String sep (str_join sep (x :: xs))).
    by rewrite IH.
  - destruct (str_split sep s) as [|x xs]; [done |].
    destruct xs as [|y ys].
    + cbn [str_join] in *. by rewrite IH.
    + change (str_join sep (String c x :: y :: ys))
        with (String c (x +:+ String sep (str_join sep (y :: ys)))).
      f_equal. exact IH.
Qed.

End tag_list_facts.

(** ** The today view after a request *)

Section view_after.

(** The view depends on the due rows of the table only. *)
Lemma today_items_ext today (st1 st2 : store) :
  (∀ id t, st1 !! id = Some t ∧ Due today t ↔ st2 !! id = Some t ∧ Due today t) →
  today_items today st1 = today_items today st2.
Proof.
  intros Hsame. unfold today_items. f_equal.
  apply (TodayList_unique today st2); [| apply query_TodayList].
  destruct (query_TodayList today st1) as (Hm & Hnd & Hs).
  split; [| done]. intros id t. by rewrite Hm, Hsame.
Qed.

Lemma today_items_elem today (st : store) id t :
  (id, t) ∈ today_items today st → st !! id = Some t ∧ Due today t.
Proof.
  unfold today_items. intros Hin%subseteq_take.
  by apply (query_TodayList today st).
Qed.

Lemma next_id_gt (st : store) id t : st !! id = Some t → id < next_id st.
Proof.
  intros Hid. assert (id ∈ elements (dom (rows st))) as Hin.
  { apply elem_of_elements, elem_of_dom. eauto. }
  unfold next_id. destruct (elements (dom (rows st))) as [|k ks].
  - by apply elem_of_nil in Hin.
  - apply foldr_max_ge in Hin. lia.
Qed.

(** Below the last id of the column, the next id fits. *)
Lemma next_id_fits (st : store) :
  next_id st <= max_rowid → rowid_fits (next_id st) = true.
Proof.
  intros Hmax. unfold rowid_fits, max_rowid in *.
  apply andb_true_intro. split; [| lia].
  apply Z.leb_le. unfold next_id.
  destruct (elements (dom (rows st))) as [|k ks] eqn:Hel; [lia |].
  assert (k ∈ elements (dom (rows st))) as Hk by (rewrite Hel; left).
  apply elem_of_elements, elem_of_dom in Hk as [t Hk].
  apply (store_lookup_fits st k t) in Hk. unfold rowid_fits in Hk.
  apply andb_prop in Hk as [Hk _]. apply Z.leb_le in Hk.
  assert (k ∈ k :: ks) as Hin by left.
  apply foldr_max_ge in Hin. lia.
Qed.

Lemma done_on_not_due today day t : ¬ Due day (done_on today t).
Proof. intros [_ [Hs | Hs]]; discriminate Hs. Qed.

(** X4. In a table whose next id is not beyond the last id of the
    column, a task added with today as its due date is the first item
    of the today view of that day. *)
Theorem add_task_due_today_first today now form (st : store) n :
  next_id st <= max_rowid →
  pomos_of form = Ok n → due_of today form = Ok today →
  ∃ st' t,
    add_task today now form st = Ok (st', Redirect "today_view")
    ∧ st' !! next_id st = Some t
    ∧ head (today_items today st') = Some (next_id st, t).
Proof.
  intros Hfit%next_id_fits Hn Hd.
  set (t := new_task today now form n today).
  exists (<[next_id st := t]> st), t.
  split; [by apply add_task_Ok |].
  split; [by rewrite store_lookup_insert_eq |].
  unfold today_items.
  destruct (query_TodayList today (<[next_id st := t]> st)) as (Hm & Hnd & Hs).
  assert (Hdue : Due today t).
  { split; [apply le_refl |]. left. unfold t; cbn. unfold status_of.
    by case_decide. }
  assert (Hin : (next_id st, t) ∈
    merge_sort OrderBy (filter (Selected today)
      (map_to_list (rows (<[next_id st := t]> st))))).
  { apply Hm. by rewrite store_lookup_insert_eq. }
  destruct (merge_sort OrderBy _) as [|x l]; [by apply elem_of_nil in Hin |].
  cbn [take head]. f_equal.
  apply elem_of_cons in Hin as [<- | Hin]; [done |].
  apply StronglySorted_cons in Hs as [Hall _].
  rewrite Forall_forall in Hall. specialize (Hall _ Hin).
  destruct x as [i ti].
  assert (Hx : (<[next_id st := t]> st) !! i = Some ti ∧ Due today ti)
    by (apply Hm; left).
  destruct Hx as [Hx _].
  destruct (decide (i = next_id st)) as [-> | Hne].
  - rewrite store_lookup_insert_eq in Hx by done. congruence.
  - rewrite store_lookup_insert_ne in Hx by done.
    apply next_id_gt in Hx.
    destruct Hall as [[_ Hsch] | [_ Hlt]]; cbn in *.
    + unfold status_of in Hsch. by case_decide.
    + lia.
Qed.

Lemma add_task_due_today_first_witness :
  next_id one_done <= max_rowid
  ∧ pomos_of read_ch3 = Ok 5 ∧ due_of a_day read_ch3 = Ok a_day
  ∧ ∃ st' t,
      add_task a_day 0 read_ch3 one_done = Ok (st', Redirect "today_view")
      ∧ st' !! next_id one_done = Some t
      ∧ head (today_items a_day st') = Some (next_id one_done, t).
Proof.
  split; [vm_compute; discriminate |].
  split; [reflexivity |]. split; [reflexivity |].
  apply (add_task_due_today_first a_day 0 read_ch3 one_done 5);
    [vm_compute; discriminate | reflexivity | reflexivity].
Defined.

(** X5. Adding a task whose due date is after the day of the view
    leaves that view as it was: the new task is not shown and no shown
    item moves. *)
Theorem add_task_later_keeps_view today now form (st : store) n d day :
  pomos_of form = Ok n → due_of today form = Ok d →
  Date.le d day = false →
  ∃ st',
    add_task today now form st = Ok (st', Redirect "today_view")
    ∧ today_items day st' = today_items day st.
Proof.
  intros Hn Hd Hlater.
  exists (<[next_id st := new_task today now form n d]> st).
  split; [by apply add_task_Ok |].
  destruct (rowid_fits (next_id st)) eqn:Hfit;
    [| by rewrite store_insert_unfit].
  apply today_items_ext. intros id t.
  destruct (decide (id = next_id st)) as [-> | Hne].
  - rewrite store_lookup_insert_eq, next_id_fresh by done.
    split; [| by intros [? _]].
    intros [[= <-] [Hle _]]. cbn in Hle. congruence.
  - by rewrite store_lookup_insert_ne.
Qed.

Lemma add_task_later_keeps_view_witness :
  pomos_of untitled_2099 = Ok 1
  ∧ due_of a_day untitled_2099 = Ok (Date 2099 1 1)
  ∧ Date.le (Date 2099 1 1) a_day = false
  ∧ ∃ st',
      add_task a_day 0 untitled_2099 one_open
      = Ok (st', Redirect "today_view")
      ∧ today_items a_day st' = today_items a_day one_open.
Proof.
  split; [reflexivity |]. split; [reflexivity |]. split; [reflexivity |].
  apply (add_task_later_keeps_view a_day 0 untitled_2099 one_open 1
           (Date 2099 1 1) a_day); reflexivity.
Defined.

(** X6. Once marked done, a task is shown in the today view of no day,
    and the view of every day is the one the table would have with
    the task deleted. *)
Theorem mark_done_leaves_view today id (st : store) t :
  st !! id = Some t →
  ∃ st1 st2 r1 r2,
    mark_done today id st = Ok (st1, r1)
    ∧ delete_task id st = Ok (st2, r2)
    ∧ ∀ day,
        (∀ t', (id, t') ∉ today_items day st1)
        ∧ today_items day st1 = today_items day st2.
Proof.
  intros Hid. pose proof (store_lookup_fits st id t Hid) as Hfit.
  exists (<[id := done_on today t]> st), (delete id st),
    (Redirect "today_view"), (Redirect "today_view").
  split; [by apply mark_done_Some |].
  split; [by apply (delete_task_Some id st t) |].
  intros day. split.
  - intros t' [Hl Hdue]%today_items_elem.
    rewrite store_lookup_insert_eq in Hl by done. injection Hl as <-.
    by apply done_on_not_due in Hdue.
  - apply today_items_ext. intros j tj.
    destruct (decide (j = id)) as [-> | Hne].
    + rewrite store_lookup_insert_eq, store_lookup_delete_eq by done.
      split; [| by intros [? _]].
      intros [[= <-] Hdue]. by apply done_on_not_due in Hdue.
    + by rewrite store_lookup_insert_ne, store_lookup_delete_ne.
Qed.

Lemma mark_done_leaves_view_witness :
  one_open !! 1 = Some (new_task a_day 0 read_ch3 5 a_day)
  ∧ ∃ st1 st2 r1 r2,
      mark_done a_day 1 one_open = Ok (st1, r1)
      ∧ delete_task 1 one_open = Ok (st2, r2)
      ∧ ∀ day,
          (∀ t', (1, t') ∉ today_items day st1)
          ∧ today_items day st1 = today_items day st2.
Proof.
  split; [reflexivity |].
  apply (mark_done_leaves_view a_day 1 one_open
           (new_task a_day 0 read_ch3 5 a_day)).
  reflexivity.
Defined.

End view_after.

(** ** Priority and eligibility in the today view *)

Section view_priority.

Lemma StronglySorted_lookup {A} (R : relation A) (l : list A) i j x y :
  StronglySorted R l → l !! i = Some x → l !! j = Some y → (i < j)%nat →
  R x y.
Proof.
  intros Hs. revert i j. induction Hs as [|a l Hs IH Hall]; intros i j Hi Hj Hlt.
  - by rewrite lookup_nil in Hi.
  - destruct j as [|j]; [lia |]. cbn in Hj.
    destruct i as [|i].
    + cbn in Hi. injection Hi as <-.
      rewrite Forall_forall in Hall. apply Hall.
      apply list_elem_of_lookup. eauto.
    + cbn in Hi. apply (IH i j); [done | done | lia].
Qed.

(** X7. The limit of three cuts the view from below only: when an item
    is shown, so is every due row that goes before it, that is every
    due "today" row when the item is "scheduled", and every due row of
    the same status with a larger id. *)
Theorem today_view_priority today (st : store) x y :
  x ∈ today_items today st →
  st !! y.1 = Some y.2 → Due today y.2 → Before y x →
  y ∈ today_items today st.
Proof.
  unfold today_items. intros Hx Hy Hdue Hyx.
  destruct (query_TodayList today st) as (Hm & Hnd & Hs).
  set (l := merge_sort OrderBy (filter (Selected today) (map_to_list (rows st)))) in *.
  apply elem_of_take in Hx as (i & Hi & Hi3).
  assert (y ∈ l) as Hyl by (destruct y; by apply Hm).
  apply list_elem_of_lookup in Hyl as [j Hj].
  apply elem_of_take. exists j. split; [done |].
  destruct (decide (j < i)%nat) as [Hlt | Hge]; [lia |].
  destruct (decide (j = i)) as [-> | Hne]; [done |].
  assert (Before x y) as Hxy.
  { apply (StronglySorted_lookup Before l i j); [done | done | done | lia]. }
  destruct (Before_asym x y Hxy Hyx).
Qed.

Lemma today_view_priority_witness :
  (1, new_task a_day 0 read_ch3 5 a_day) ∈ today_items a_day two_open
  ∧ two_open !! 2 = Some (new_task a_day 1 read_ch3 5 a_day)
  ∧ Due a_day (new_task a_day 1 read_ch3 5 a_day)
  ∧ Before (2, new_task a_day 1 read_ch3 5 a_day)
      (1, new_task a_day 0 read_ch3 5 a_day)
  ∧ (2, new_task a_day 1 read_ch3 5 a_day) ∈ today_items a_day two_open.
Proof.
  assert (H1 : (1, new_task a_day 0 read_ch3 5 a_day)
               ∈ today_items a_day two_open).
  { vm_compute. apply list_elem_of_further, list_elem_of_here. }
  assert (H2 : Due a_day (new_task a_day 1 read_ch3 5 a_day)).
  { split; [reflexivity | left; reflexivity]. }
  assert (H3 : Before (2, new_task a_day 1 read_ch3 5 a_day)
                 (1, new_task a_day 0 read_ch3 5 a_day)).
  { right. split; [reflexivity | cbn; lia]. }
  split; [exact H1 |]. split; [reflexivity |]. split; [exact H2 |].
  split; [exact H3 |].
  apply (today_view_priority a_day two_open
           (1, new_task a_day 0 read_ch3 5 a_day)
           (2, new_task a_day 1 read_ch3 5 a_day));
    [exact H1 | reflexivity | exact H2 | exact H3].
Defined.

Lemma le_trans a b c :
  Date.le a b = true → Date.le b c = true → Date.le a c = true.
Proof.
  unfold Date.le.
  repeat match goal with
    | |- context [?u =? ?v] => destruct (Z.eqb_spec u v)
    end;
    rewrite ?Z.ltb_lt, ?Z.leb_le; try lia; intros; exfalso; lia.
Qed.

(** X8. An open row stays eligible: a row that is due on one day is due
    on every later day, so it is in the list behind the view until it
    is marked done or deleted. *)
Theorem due_on_later_days today day (st : store) id t :
  st !! id = Some t → Due today t → Date.le today day = true →
  ∃ l, TodayList day st l ∧ (id, t) ∈ l
       ∧ today_items day st = take 3 l.
Proof.
  intros Hid [Hle Hst] Hlater.
  exists (merge_sort OrderBy (filter (Selected day) (map_to_list (rows st)))).
  pose proof (query_TodayList day st) as Hl.
  split; [exact Hl |]. split; [| reflexivity].
  apply Hl. split; [done |]. split; [| done].
  by apply (le_trans _ today).
Qed.

Lemma due_on_later_days_witness :
  one_open !! 1 = Some (new_task a_day 0 read_ch3 5 a_day)
  ∧ Due a_day (new_task a_day 0 read_ch3 5 a_day)
  ∧ Date.le a_day (Date 2025 4 1) = true
  ∧ ∃ l, TodayList (Date 2025 4 1) one_open l
         ∧ (1, new_task a_day 0 read_ch3 5 a_day) ∈ l
         ∧ today_items (Date 2025 4 1) one_open = take 3 l.
Proof.
  assert (H2 : Due a_day (new_task a_day 0 read_ch3 5 a_day)).
  { split; [reflexivity | left; reflexivity]. }
  split; [reflexivity |]. split; [exact H2 |]. split; [reflexivity |].
  apply (due_on_later_days a_day (Date 2025 4 1) one_open 1
           (new_task a_day 0 read_ch3 5 a_day));
    [reflexivity | exact H2 | reflexivity].
Defined.

End view_priority.

(** ** How the requests compose *)

Section composition.

Lemma next_id_mark_done today id (st : store) t :
  st !! id = Some t → next_id (<[id := done_on today t]> st) = next_id st.
Proof.
  intros Hid. unfold next_id.
  rewrite rows_insert by (by apply (store_lookup_fits st id t)).
  rewrite dom_insert_lookup_L; [done |]. by exists t.
Qed.

(** X9. In a table whose next id is not beyond the last id of the
    column, a successful add leaves every row as it was, under its id,
    gives the new row an id above all of them, and makes the table one
    row larger. *)
Theorem add_task_keeps_rows today now form (st : store) n d :
  next_id st <= max_rowid →
  pomos_of form = Ok n → due_of today form = Ok d →
  ∃ st',
    add_task today now form st = Ok (st', Redirect "today_view")
    ∧ (∀ id t, st !! id = Some t → st' !! id = Some t ∧ id < next_id st)
    ∧ is_Some (st' !! next_id st)
    ∧ size st' = S (size st).
Proof.
  intros Hfit%next_id_fits Hn Hd.
  exists (<[next_id st := new_task today now form n d]> st).
  split; [by apply add_task_Ok |]. split; [| split].
  - intros id t Hid. pose proof (next_id_gt st id t Hid) as Hlt.
    split; [| done]. rewrite store_lookup_insert_ne by lia. done.
  - rewrite store_lookup_insert_eq by done. eauto.
  - unfold size, store_size. rewrite rows_insert by done.
    apply map_size_insert_None, next_id_fresh.
Qed.

Lemma add_task_keeps_rows_witness :
  next_id one_done <= max_rowid
  ∧ pomos_of read_ch3 = Ok 5 ∧ due_of a_day read_ch3 = Ok a_day
  ∧ ∃ st',
      add_task a_day 0 read_ch3 one_done = Ok (st', Redirect "today_view")
      ∧ (∀ id t, one_done !! id = Some t →
           st' !! id = Some t ∧ id < next_id one_done)
      ∧ is_Some (st' !! next_id one_done)
      ∧ size st' = S (size one_done).
Proof.
  split; [vm_compute; discriminate |].
  split; [reflexivity |]. split; [reflexivity |].
  apply (add_task_keeps_rows a_day 0 read_ch3 one_done 5 a_day);
    [vm_compute; discriminate | reflexivity | reflexivity].
Defined.

(** X10. Marking a task done again on another day is the same as
    marking it done on that day only: the later completion date
    replaces the earlier one. *)
Theorem mark_done_last_date d1 d2 id (st : store) :
  and_then (mark_done d1 id) (mark_done d2 id) st = mark_done d2 id st.
Proof.
  unfold and_then. destruct (st !! id) as [t|] eqn:Hid.
  - pose proof (store_lookup_fits st id t Hid) as Hfit.
    rewrite (mark_done_Some d1 id st t Hid). cbn [bind fst].
    rewrite (mark_done_Some d2 id _ (done_on d1 t))
      by (by apply store_lookup_insert_eq).
    rewrite (mark_done_Some d2 id st t Hid). by rewrite store_insert_insert_eq.
  - destruct (rowid_fits id) eqn:Hfit.
    + by rewrite !(mark_done_None _ id st Hfit Hid).
    + by rewrite !(mark_done_unfit _ id st Hfit).
Qed.

(** What serving a done or a delete request gives. *)
Lemma serve_Done d i (st : store) :
  serve (Done d i) st
  = match st !! i with
    | Some t => (<[i := done_on d t]> st, Ok (Redirect "today_view"))
    | None =>
        (st, Raise (if rowid_fits i then NotFound else OverflowError))
    end.
Proof.
  unfold serve; cbn [run]. destruct (st !! i) as [t|] eqn:Hi.
  - by rewrite (mark_done_Some d i st t Hi).
  - destruct (rowid_fits i) eqn:Hfit.
    + by rewrite (mark_done_None d i st Hfit Hi).
    + by rewrite (mark_done_unfit d i st Hfit).
Qed.

Lemma serve_Delete i (st : store) :
  serve (Delete i) st
  = match st !! i with
    | Some t => (delete i st, Ok (Redirect "today_view"))
    | None =>
        (st, Raise (if rowid_fits i then NotFound else OverflowError))
    end.
Proof.
  unfold serve; cbn [run]. destruct (st !! i) as [t|] eqn:Hi.
  - by rewrite (delete_task_Some i st t Hi).
  - destruct (rowid_fits i) eqn:Hfit.
    + by rewrite (delete_task_None i st Hfit Hi).
    + by rewrite (delete_task_unfit i st Hfit).
Qed.

(** X11. Requests on two different ids do not interfere: served in
    either order, marking one done and marking or deleting the other,
    and two deletions, leave the same table, and each request has the
    same outcome, a failed one having changed nothing. *)
Theorem done_delete_commute d1 d2 i j (st : store) :
  i ≠ j →
  (∃ st' out_i out_j,
     serve2 (Done d1 i) (Done d2 j) st = (st', out_i, out_j)
     ∧ serve2 (Done d2 j) (Done d1 i) st = (st', out_j, out_i))
  ∧ (∃ st' out_i out_j,
       serve2 (Done d1 i) (Delete j) st = (st', out_i, out_j)
       ∧ serve2 (Delete j) (Done d1 i) st = (st', out_j, out_i))
  ∧ (∃ st' out_i out_j,
       serve2 (Delete i) (Delete j) st = (st', out_i, out_j)
       ∧ serve2 (Delete j) (Delete i) st = (st', out_j, out_i)).
Proof.
  intros Hij. assert (j ≠ i) as Hji by congruence.
  unfold serve2. rewrite !serve_Done, !serve_Delete.
  destruct (st !! i) as [ti|] eqn:Hi, (st !! j) as [tj|] eqn:Hj;
    rewrite ?serve_Done, ?serve_Delete,
      ?store_lookup_insert_ne, ?store_lookup_delete_ne, ?Hi, ?Hj by done;
    (split; [| split]); eexists _, _, _; (split; [reflexivity |]);
    rewrite ?(store_insert_insert_ne st j i),
      ?(store_delete_insert_ne st j i), ?(store_delete_delete st j i)
      by done;
    reflexivity.
Qed.

Lemma done_delete_commute_witness :
  (1 : Z) ≠ 2
  ∧ (∃ st' out_i out_j,
       serve2 (Done a_day 1) (Done a_day 2) two_open = (st', out_i, out_j)
       ∧ serve2 (Done a_day 2) (Done a_day 1) two_open = (st', out_j, out_i))
  ∧ (∃ st' out_i out_j,
       serve2 (Done a_day 1) (Delete 2) two_open = (st', out_i, out_j)
       ∧ serve2 (Delete 2) (Done a_day 1) two_open = (st', out_j, out_i))
  ∧ (∃ st' out_i out_j,
       serve2 (Delete 1) (Delete 2) two_open = (st', out_i, out_j)
       ∧ serve2 (Delete 2) (Delete 1) two_open = (st', out_j, out_i)).
Proof.
  split; [lia |].
  apply (done_delete_commute a_day a_day 1 2 two_open). lia.
Defined.

(** X12. In a table whose next id is not beyond the last id of the
    column, marking an existing task done and adding a new one, served
    in either order, leave the same table, the new row under the same
    id, and each request has the same outcome; when the add aborts, the
    task is marked done all the same. *)
Theorem done_add_commute d today now form id (st : store) t :
  next_id st <= max_rowid → st !! id = Some t →
  ∃ st' out_done out_add,
    serve2 (Done d id) (Add today now form) st = (st', out_done, out_add)
    ∧ serve2 (Add today now form) (Done d id) st = (st', out_add, out_done)
    ∧ out_done = Ok (Redirect "today_view")
    ∧ st' !! id = Some (done_on d t).
Proof.
  intros Hnext%next_id_fits Hid.
  pose proof (store_lookup_fits st id t Hid) as Hfit.
  pose proof (next_id_gt st id t Hid) as Hlt.
  unfold serve2. rewrite serve_Done, Hid.
  unfold serve at 1 2; cbn [run]. unfold add_task.
  destruct (pomos_of form) as [n|e]; cbn [bind].
  2: { rewrite serve_Done, Hid. eexists _, _, _. split; [reflexivity |].
       split; [reflexivity |]. split; [done |].
       by apply store_lookup_insert_eq. }
  destruct (due_of today form) as [due|e]; cbn [bind].
  2: { rewrite serve_Done, Hid. eexists _, _, _. split; [reflexivity |].
       split; [reflexivity |]. split; [done |].
       by apply store_lookup_insert_eq. }
  rewrite (next_id_mark_done d id st t Hid).
  rewrite serve_Done, store_lookup_insert_ne, Hid by lia.
  eexists _, _, _. split; [reflexivity |].
  split; [by rewrite store_insert_insert_ne by lia |].
  split; [done |].
  rewrite store_lookup_insert_ne by lia. by apply store_lookup_insert_eq.
Qed.

Lemma done_add_commute_witness :
  next_id one_open <= max_rowid
  ∧ one_open !! 1 = Some (new_task a_day 0 read_ch3 5 a_day)
  ∧ ∃ st' out_done out_add,
      serve2 (Done a_day 1) (Add a_day 1 untitled_2099) one_open
      = (st', out_done, out_add)
      ∧ serve2 (Add a_day 1 untitled_2099) (Done a_day 1) one_open
        = (st', out_add, out_done)
      ∧ out_done = Ok (Redirect "today_view")
      ∧ st' !! 1 = Some (done_on a_day (new_task a_day 0 read_ch3 5 a_day)).
Proof.
  split; [vm_compute; discriminate |]. split; [reflexivity |].
  apply (done_add_commute a_day a_day 1 untitled_2099 1 one_open
           (new_task a_day 0 read_ch3 5 a_day));
    [vm_compute; discriminate | reflexivity].
Defined.

End composition.

(** ** When the pomos field aborts the request *)

Section pomos_failure.

Lemma isdigit_char_cases c :
  Str.isdigit_char c = true →
  Str.isspace c = false ∧ Ascii.eqb c "_" = false
  ∧ Ascii.eqb c "-" = false ∧ Ascii.eqb c "+" = false.
Proof.
  intros Hc.
  assert (Hne : ∀ x, Str.isdigit_char x = false → Ascii.eqb c x = false).
  { intros x Hx. destruct (Ascii.eqb_spec c x); congruence. }
  split; [| by rewrite !Hne].
  unfold Str.isdigit_char, Str.isdecimal_char in Hc. unfold Str.isspace.
  cbn zeta.
  repeat match goal with
    | |- context [?a <=? ?b] => destruct (Z.leb_spec a b)
    | |- context [?a =? ?b] => destruct (Z.eqb_spec a b)
    | H : context [?a <=? ?b] |- _ => destruct (Z.leb_spec a b)
    | H : context [?a =? ?b] |- _ => destruct (Z.eqb_spec a b)
    end; cbn in *; try lia; done.
Qed.

Lemma all_digit_ends s :
  Str.all_chars Str.isdigit_char s = true → ends_with_space s = false.
Proof.
  induction s as [|c s IH]; [done |]. cbn [Str.all_chars ends_with_space].
  intros [Hc Hs]%andb_prop.
  destruct s; [by apply isdigit_char_cases | auto].
Qed.

Lemma isdigit_all s :
  Str.isdigit s = true → s ≠ "" ∧ Str.all_chars Str.isdigit_char s = true.
Proof. destruct s; [done |]. by intros H. Qed.

Lemma isdigit_strip s : Str.isdigit s = true → Str.strip s = s.
Proof.
  intros [Hne Hall]%isdigit_all. unfold Str.strip. rewrite lstrip_id.
  - by apply rstrip_id, all_digit_ends.
  - destruct s as [|c s]; [done |]. cbn in *.
    apply andb_prop in Hall as [Hc _]. by apply isdigit_char_cases.
Qed.

Lemma int_digits_non_decimal s acc seen :
  Str.all_chars Str.isdigit_char s = true →
  Str.all_chars Str.isdecimal_char s = false →
  Str.int_digits acc seen s = None.
Proof.
  revert acc seen. induction s as [|c s IH]; intros acc seen; [done |].
  cbn [Str.all_chars Str.int_digits]. intros [Hc Hs]%andb_prop Hdec.
  destruct (isdigit_char_cases c Hc) as (_ & -> & _).
  unfold Str.digit_value. destruct (Str.isdecimal_char c); [| done].
  by apply IH.
Qed.

Lemma count_digits_decimal s :
  Str.all_chars Str.isdecimal_char s = true →
  Str.count_digits s = Z.of_nat (String.length s).
Proof.
  induction s as [|c s IH]; [done |].
  cbn [Str.all_chars Str.count_digits String.length].
  intros [-> Hs]%andb_prop. rewrite (IH Hs). lia.
Qed.

(** [int] on a string that [isdigit] accepts: the value, or the error
    when a character is not decimal or the digits exceed the cap. *)
Lemma int_isdigit s :
  Str.isdigit s = true →
  Str.int s
  = if Str.all_chars Str.isdecimal_char s
       && (Z.of_nat (String.length s) <=? Str.int_max_str_digits)
    then Ok (decimal_value 0 s) else Raise (ValueError_int s).
Proof.
  intros Hd. destruct (isdigit_all s Hd) as [Hne Hall].
  destruct (Str.all_chars Str.isdecimal_char s) eqn:Hdec; cbn [andb].
  - destruct (Z.leb_spec (Z.of_nat (String.length s)) Str.int_max_str_digits)
      as [Hlen | Hlen]; [by apply int_decimal |].
    unfold Str.int. rewrite (isdigit_strip s Hd).
    destruct s as [|c s]; [done |].
    pose proof Hall as Hall'. cbn [Str.all_chars] in Hall'.
    apply andb_prop in Hall' as [Hc _].
    destruct (isdigit_char_cases c Hc) as (_ & _ & -> & ->).
    rewrite (int_digits_decimal _ 0 false Hdec) by auto.
    rewrite (count_digits_decimal _ Hdec).
    destruct (Z.ltb_spec Str.int_max_str_digits
                (Z.of_nat (String.length (String c s)))); [done | lia].
  - unfold Str.int. rewrite (isdigit_strip s Hd).
    destruct s as [|c s]; [done |].
    pose proof Hall as Hall'. cbn [Str.all_chars] in Hall'.
    apply andb_prop in Hall' as [Hc _].
    destruct (isdigit_char_cases c Hc) as (_ & _ & -> & ->).
    by rewrite (int_digits_non_decimal _ 0 false Hall Hdec).
Qed.

(** X13. The add request is aborted by the conversion of the pomos
    field exactly when the field is present, [isdigit] accepts it, and
    it holds a digit character that is not decimal or more digits than
    the cap of [int]; in every other case the field is normalized. *)
Theorem add_task_pomos_aborts today now form (st : store) raw :
  add_task today now form st = Raise (ValueError_int raw)
  ↔ form_get form "pomos" = Some raw
    ∧ Str.isdigit raw = true
    ∧ (Str.all_chars Str.isdecimal_char raw = false
       ∨ Str.int_max_str_digits < Z.of_nat (String.length raw)).
Proof.
  assert (Hor : ∀ x, Str.isdigit x = true → Str.or_ x "1" = x)
    by (by intros []).
  split.
  - unfold add_task. destruct (pomos_of form) as [n|e] eqn:Hp; cbn [bind].
    { destruct (due_of today form) as [d|e] eqn:Hd; cbn [bind]; [done |].
      intros [= ->]. unfold due_of in Hd.
      by apply fromisoformat_Raise in Hd. }
    intros [= ->]. unfold pomos_of in Hp.
    destruct (form_get form "pomos") as [x|] eqn:Hget; [| done].
    destruct x as [|c x]; [done |].
    cbn -[Str.isdigit Str.int] in Hp.
    destruct (Str.isdigit (String c x)) eqn:Hd; [| done].
    rewrite (int_isdigit _ Hd) in Hp.
    destruct (Str.all_chars Str.isdecimal_char (String c x)) eqn:Hdec;
      cbn [andb] in Hp.
    + destruct (Z.leb_spec (Z.of_nat (String.length (String c x)))
                  Str.int_max_str_digits); [done |].
      injection Hp as <-. rewrite Hdec. auto.
    + injection Hp as <-. rewrite Hdec. auto.
  - intros (Hget & Hd & Hbad). unfold add_task, pomos_of.
    rewrite Hget. cbn -[Str.isdigit Str.int Str.or_ String.length].
    rewrite (Hor raw Hd), Hd, (int_isdigit raw Hd).
    destruct Hbad as [-> | Hlen]; [done |].
    destruct (Z.leb_spec (Z.of_nat (String.length raw)) Str.int_max_str_digits);
      [lia |].
    by rewrite andb_false_r.
Qed.


End pomos_failure.

(** ** The shape of the rows of a reachable table *)

Section shapes.

Lemma strip_trimmed raw : trimmed (Str.strip raw).
Proof. destruct (strip_Trimmed raw) as (_ & ? & ?). by split. Qed.

Lemma title_of_shape form : title_of form ≠ "" ∧ trimmed (title_of form).
Proof.
  unfold title_of. pose proof (strip_trimmed (default "" (form_get form "title"))).
  destruct (Str.strip _); cbn [Str.or_]; [by repeat split | done].
Qed.

Lemma source_of_shape form s :
  source_of form = Some s → s ≠ "" ∧ trimmed s.
Proof.
  unfold source_of.
  pose proof (strip_trimmed (default "" (form_get form "source"))).
  destruct (Str.strip _); [done |]. by intros [= <-].
Qed.

Lemma parse_isoformat_valid s d :
  Date.parse_isoformat s = Some d → Date.valid d = true.
Proof.
  unfold Date.parse_isoformat, Date.parse_week_day, Date.parse_month_day.
  repeat case_match; try done;
    try (intros Hc; by apply checked_valid in Hc);
    intros Hc; apply bind_Some in Hc as (d0 & _ & Hc);
    by apply checked_valid in Hc.
Qed.

Lemma due_of_valid today form d :
  due_of today form = Ok d → Date.valid d = true.
Proof.
  unfold due_of, Date.fromisoformat.
  destruct (Date.parse_isoformat _) as [d'|] eqn:Hp; [| done].
  intros [= <-]. by apply parse_isoformat_valid in Hp.
Qed.

Lemma next_id_positive (st : store) :
  store_Forall (λ id _, 1 <= id) st → 1 <= next_id st.
Proof.
  intros Hpos. unfold next_id.
  destruct (elements (dom (rows st))) as [|k ks] eqn:Hel; [lia |].
  assert (k ∈ elements (dom (rows st))) as Hk by (rewrite Hel; left).
  apply elem_of_elements, elem_of_dom in Hk as [t Hk].
  specialize (Hpos k t Hk). cbn in Hpos.
  assert (k ∈ k :: ks) as Hin by left.
  apply foldr_max_ge in Hin. lia.
Qed.

Lemma new_task_shape today now form n d id :
  1 <= id → Date.valid d = true →
  row_shape id (new_task today now form n d).
Proof.
  intros Hid Hv. unfold row_shape; cbn [new_task title source tags
    actual_pomos due_date status].
  split; [done |]. split; [apply title_of_shape |].
  split; [apply source_of_shape |]. split; [apply strip_trimmed |].
  split; [done |]. split; [done |].
  unfold status_of. case_decide; auto.
Qed.

Lemma done_on_shape today id t : row_shape id t → row_shape id (done_on today t).
Proof.
  intros (H1 & H2 & H3 & H4 & H5 & H6 & _).
  refine (conj H1 (conj H2 (conj H3 (conj H4 (conj H5 (conj H6 _)))))).
  cbn. auto.
Qed.

Lemma run_preserves_shape a (st st' : store) r :
  store_Forall row_shape st → run a st = Ok (st', r) →
  store_Forall row_shape st'.
Proof.
  intros Hinv Hrun. destruct a as [today now form | today id | id];
    cbn [run] in Hrun.
  - apply add_task_inv in Hrun as (n & d & _ & Hd & -> & _).
    apply store_Forall_insert; [| done].
    apply new_task_shape; [| by apply (due_of_valid today form)].
    apply next_id_positive. intros i t Hi. by destruct (Hinv i t Hi).
  - apply mark_done_inv in Hrun as (t & Hid & -> & _).
    apply store_Forall_insert; [| done].
    apply done_on_shape. by apply (Hinv id).
  - apply delete_task_inv in Hrun as (t & Hid & -> & _).
    by apply store_Forall_delete.
Qed.

Lemma reachable_shape (st : store) : reachable st → store_Forall row_shape st.
Proof.
  induction 1 as [| st a st' r _ IH Hrun].
  - apply store_Forall_empty.
  - by apply (run_preserves_shape a st st' r).
Qed.

(** X15. In every reachable table the text columns are normalized: the
    title is not empty and has no whitespace at its ends, the source is
    absent or a non-empty string without whitespace at its ends, and
    the tags have no whitespace at their ends. *)
Theorem reachable_text_columns (st : store) id t :
  reachable st → st !! id = Some t →
  title t ≠ ""
  ∧ starts_with_space (title t) = false ∧ ends_with_space (title t) = false
  ∧ (∀ s, source t = Some s →
       s ≠ "" ∧ starts_with_space s = false ∧ ends_with_space s = false)
  ∧ starts_with_space (tags t) = false ∧ ends_with_space (tags t) = false.
Proof.
  intros Hr Hid.
  destruct (reachable_shape st Hr id t Hid)
    as (_ & [Ht [Ht1 Ht2]] & Hs & [Hg1 Hg2] & _).
  refine (conj Ht (conj Ht1 (conj Ht2 (conj _ (conj Hg1 Hg2))))).
  intros s Hsrc. by destruct (Hs s Hsrc) as [? [? ?]].
Qed.

Lemma reachable_text_columns_witness :
  reachable one_done
  ∧ one_done !! 1 = Some (done_on a_day (new_task a_day 0 read_ch3 5 a_day))
  ∧ title (done_on a_day (new_task a_day 0 read_ch3 5 a_day)) ≠ ""
  ∧ starts_with_space (title (done_on a_day (new_task a_day 0 read_ch3 5 a_day)))
    = false
  ∧ ends_with_space (title (done_on a_day (new_task a_day 0 read_ch3 5 a_day)))
    = false
  ∧ (∀ s, source (done_on a_day (new_task a_day 0 read_ch3 5 a_day)) = Some s →
       s ≠ "" ∧ starts_with_space s = false ∧ ends_with_space s = false)
  ∧ starts_with_space (tags (done_on a_day (new_task a_day 0 read_ch3 5 a_day)))
    = false
  ∧ ends_with_space (tags (done_on a_day (new_task a_day 0 read_ch3 5 a_day)))
    = false.
Proof.
  split; [exact reachable_one_done |]. split; [reflexivity |].
  apply (reachable_text_columns one_done 1 _ reachable_one_done eq_refl).
Defined.

(** X16. In every reachable table the status of a row is "scheduled",
    "today" or "done", and its due date is a date of the calendar. *)
Theorem reachable_status_due (st : store) id t :
  reachable st → st !! id = Some t →
  (status t = "scheduled" ∨ status t = "today" ∨ status t = "done")
  ∧ Date.valid (due_date t) = true.
Proof.
  intros Hr Hid.
  by destruct (reachable_shape st Hr id t Hid) as (_ & _ & _ & _ & _ & ? & ?).
Qed.

Lemma reachable_status_due_witness :
  reachable one_done
  ∧ one_done !! 1 = Some (done_on a_day (new_task a_day 0 read_ch3 5 a_day))
  ∧ (status (done_on a_day (new_task a_day 0 read_ch3 5 a_day)) = "scheduled"
     ∨ status (done_on a_day (new_task a_day 0 read_ch3 5 a_day)) = "today"
     ∨ status (done_on a_day (new_task a_day 0 read_ch3 5 a_day)) = "done")
  ∧ Date.valid (due_date (done_on a_day (new_task a_day 0 read_ch3 5 a_day)))
    = true.
Proof.
  split; [exact reachable_one_done |]. split; [reflexivity |].
  apply (reachable_status_due one_done 1 _ reachable_one_done eq_refl).
Defined.

(** X17. In every reachable table the ids are positive, and no handler
    has touched [actual_pomos]: it is 0 in every row. *)
Theorem reachable_ids_actual (st : store) id t :
  reachable st → st !! id = Some t → 1 <= id ∧ actual_pomos t = 0.
Proof.
  intros Hr Hid.
  by destruct (reachable_shape st Hr id t Hid) as (? & _ & _ & _ & ? & _).
Qed.

Lemma reachable_ids_actual_witness :
  reachable one_done
  ∧ one_done !! 1 = Some (done_on a_day (new_task a_day 0 read_ch3 5 a_day))
  ∧ 1 <= 1
  ∧ actual_pomos (done_on a_day (new_task a_day 0 read_ch3 5 a_day)) = 0.
Proof.
  split; [exact reachable_one_done |]. split; [reflexivity |].
  apply (reachable_ids_actual one_done 1 _ reachable_one_done eq_refl).
Defined.

Lemma strip_idem raw : Str.strip (Str.strip raw) = Str.strip raw.
Proof.
  symmetry. apply Trimmed_strip.
  destruct (strip_trimmed raw) as [Hs He]. split; [| done].
  exists "", "". split; [| done]. rewrite append_empty_l.
  generalize (Str.strip raw). intros s.
  induction s as [|c s IH]; [done |]. by rewrite append_cons, <- IH.
Qed.

Lemma title_of_single x :
  title_of [("title", x)] = Str.or_ (Str.strip x) "Untitled Task".
Proof. reflexivity. Qed.

Lemma source_of_single x :
  source_of [("source", x)]
  = match Str.strip x with EmptyString => None | s => Some s end.
Proof. reflexivity. Qed.

Lemma tags_of_single x : tags_of [("tags", x)] = Str.strip x.
Proof. reflexivity. Qed.

(** X18. The normalization of the add form is idempotent: submitting the
    stored title, source and tags of a row again stores the same title,
    source and tags. *)
Theorem add_form_idempotent form :
  title_of [("title", title_of form)] = title_of form
  ∧ (∀ s, source_of form = Some s → source_of [("source", s)] = Some s)
  ∧ tags_of [("tags", tags_of form)] = tags_of form.
Proof.
  split; [| split].
  - rewrite title_of_single. unfold title_of.
    destruct (Str.strip (default "" (form_get form "title"))) as [|c s] eqn:Hs.
    + reflexivity.
    + cbn [Str.or_]. by rewrite <- Hs, strip_idem, Hs.
  - intros s Hsrc. rewrite source_of_single. unfold source_of in Hsrc.
    destruct (Str.strip (default "" (form_get form "source"))) as [|c s'] eqn:Hs;
      [done |].
    injection Hsrc as <-. by rewrite <- Hs, strip_idem, Hs.
  - rewrite tags_of_single. unfold tags_of. apply strip_idem.
Qed.

End shapes.
